(** * Letterbox preprocessing and detection mapping of [backend/server.js]

    A shallow embedding of the image-to-detection geometry of the road
    maintenance backend: the letterbox arithmetic of [preprocessImage], the
    row loop of [processDetections] and the part of the [/predict] handler
    that connects them.  JavaScript numbers are IEEE 754 binary64 values, so
    they are modelled by Rocq's primitive [float]s, whose operations are the
    binary64 ones; a value that may be absent is a [JS.value].

    The routes of the server follow: each is a function from the request
    to the calls it makes on the store, the file system and the console,
    and the response it sends; the libraries it calls (mongoose, bcrypt,
    jsonwebtoken, express-validator, sharp) are parameters. *)

From Stdlib Require Import String ZArith List Bool Lia Floats Uint63.
From Stdlib Require Import Reals Lra DecimalString.
From Equations Require Import Equations.
Import ListNotations.

Set Warnings "-inexact-float,-register-all,-notation-for-abbreviation".
Open Scope Z_scope.

(** ** The fragment of JavaScript the server relies on *)

Module JS.

(** A value read from an array: a Number, or [undefined] when the index is
    past the end (array destructuring of a short slice). *)
Inductive value : Type :=
| Num (f : float)
| Undefined.

(** ToNumber: [undefined] becomes NaN. *)
Definition ToNumber (v : value) : float :=
  match v with
  | Num f => f
  | Undefined => nan
  end.

(** [a > b]: both sides go through ToNumber; a comparison with NaN is
    false. *)
Definition gt (a b : value) : bool :=
  (ToNumber b <? ToNumber a)%float.

(** The integer [n] as a Number; exact for [|n| < 2^53]. *)
Definition of_Z (n : Z) : float :=
  match n with
  | Z0 => zero
  | Zpos _ => of_uint63 (Uint63.of_Z n)
  | Zneg _ => (- of_uint63 (Uint63.of_Z (- n)))%float
  end.

(** [Math.min(a, b)]: NaN if either argument is NaN, and -0 counts as
    smaller than +0. *)
Definition Math_min (a b : float) : float :=
  if is_nan a || is_nan b then nan
  else if (a <? b)%float then a
  else if (b <? a)%float then b
  else if get_sign a then a else b.

(** [Math.round(x)]: the integral Number closest to [x], a tie going
    towards +Infinity; NaN, the infinities and the zeros are returned
    unchanged, and a result of zero keeps the sign of [x].  A finite
    non-zero [x] is [(-1)^s * m * 2^e]; when [e < 0] the result is
    [floor (x + 1/2) = floor ((2 * n + 2^k) / 2^(k+1))] with [n] the signed
    mantissa and [k = - e]. *)
Definition Math_round (x : float) : float :=
  match Prim2SF x with
  | S754_finite s m e =>
      if 0 <=? e then x
      else
        let k := - e in
        let n := if s then Zneg m else Zpos m in
        let r := (2 * n + 2 ^ k) / 2 ^ (k + 1) in
        if r =? 0 then (if s then neg_zero else zero) else of_Z r
  | _ => x
  end.

(** [Number.isInteger(v)]: a finite Number without fractional part. *)
Definition Number_isInteger (v : float) : bool :=
  match Prim2SF v with
  | S754_zero _ => true
  | S754_finite _ m e => (0 <=? e) || (Zpos m mod 2 ^ (- e) =? 0)
  | _ => false
  end.

(** [a.slice(start, end)] for [0 <= start <= end]: the elements at indices
    [start .. end - 1] that exist. *)
Definition slice {A : Type} (a : list A) (start end_ : nat) : list A :=
  firstn (end_ - start) (skipn start a).

(** [a[k]] as bound by array destructuring. *)
Definition index (a : list float) (k : nat) : value :=
  match nth_error a k with
  | Some f => Num f
  | None => Undefined
  end.

End JS.

(** Errors: a thrown exception or a rejected promise, with its message. *)
Inductive result (A : Type) : Type :=
| Ok (a : A)
| Throw (message : string).
Arguments Ok {A} a.
Arguments Throw {A} message.

Definition bind {A B : Type} (r : result A) (k : A -> result B) : result B :=
  match r with
  | Ok a => k a
  | Throw msg => Throw msg
  end.

Notation "x <- r ;; k" := (bind r (fun x => k))
  (at level 61, r at next level, right associativity).

(** ** [server.js] *)

(** [const targetSize = 640;] *)
Definition targetSize : float := 640%float.

(** The objects pushed by [processDetections]. *)
Record Detection : Type := mkDetection {
  x : float;
  y : float;
  width : float;
  height : float;
  confidence : JS.value;
  classId : JS.value
}.

(** The body of the [for] loop of [processDetections] for the row that
    starts at index [i]: the detections after this iteration.  The
    variables [width], [height], [confidence] and [classId] of the source
    carry an underscore here, their names being those of the fields. *)
Definition processRow (rawData : list float)
    (originalWidth originalHeight scale : float) (i : nat)
    (detections : list Detection) : list Detection :=
  let row := JS.slice rawData i (i + 6) in
  let x_center := JS.index row 0 in
  let y_center := JS.index row 1 in
  let width_ := JS.index row 2 in
  let height_ := JS.index row 3 in
  let confidence_ := JS.index row 4 in
  let classId_ := JS.index row 5 in
  if JS.gt confidence_ (JS.Num 0.5%float) then
    detections ++
      [ {| x := ((JS.ToNumber x_center / targetSize) * originalWidth) / scale;
           y := ((JS.ToNumber y_center / targetSize) * originalHeight) / scale;
           width := ((JS.ToNumber width_ / targetSize) * originalWidth) / scale;
           height := ((JS.ToNumber height_ / targetSize) * originalHeight) / scale;
           confidence := confidence_;
           classId := classId_ |} ]%float
  else detections.

(** [for (let i = 0; i < rawData.length; i += 6) { ... }] from index [i]
    on. *)
Equations? processLoop (rawData : list float)
    (originalWidth originalHeight scale : float) (i : nat)
    (detections : list Detection) : list Detection
    by wf (length rawData - i)%nat lt :=
  processLoop rawData originalWidth originalHeight scale i detections
    with lt_dec i (length rawData) => {
    | left _ :=
        processLoop rawData originalWidth originalHeight scale (i + 6)
          (processRow rawData originalWidth originalHeight scale i detections);
    | right _ := detections }.
Proof. lia. Qed.

(** [function processDetections(output, originalWidth, originalHeight,
    scale)], with [rawData = Array.from(output.data)]. *)
Definition processDetections (rawData : list float)
    (originalWidth originalHeight scale : float) : list Detection :=
  processLoop rawData originalWidth originalHeight scale 0 [].

(** The image library (sharp), as far as [server.js] calls it. *)
Module Sharp.

(** The fields of [metadata()] that are read. *)
Record Metadata : Type := {
  width : float;
  height : float
}.

(** The argument of [extend]; the background is always opaque black. *)
Record ExtendOptions : Type := {
  top : float;
  bottom : float;
  left : float;
  right : float
}.

Record Library : Type := {
  (** [await sharp(imagePath).metadata()] *)
  metadata : string -> result Metadata;
  (** [await sharp(imagePath).resize(w, h).extend(o).removeAlpha().raw()
      .toBuffer()]: the bytes of the letterboxed canvas. *)
  letterboxed : string -> float -> float -> ExtendOptions ->
                result (list Byte.byte)
}.

End Sharp.

(** The value stored by an assignment into a [Float32Array]: the Number
    rounded to binary32 (to nearest, ties to even). *)
Definition fround (v : float) : float :=
  match Prim2SF v with
  | S754_finite s m e => SF2Prim (binary_round 24 128 s m e)
  | _ => v
  end.

(** The numbers [preprocessImage] derives from the image size (lines 53 to
    68): the scale, the size passed to [resize] and the padding passed to
    [extend]. *)
Record Letterbox : Type := {
  lb_scale : float;
  scaledWidth : float;
  scaledHeight : float;
  extend : Sharp.ExtendOptions
}.

Definition letterbox (originalWidth originalHeight : float) : Letterbox :=
  let scale :=
    JS.Math_min (targetSize / originalWidth) (targetSize / originalHeight) in
  let scaledWidth := JS.Math_round (originalWidth * scale) in
  let scaledHeight := JS.Math_round (originalHeight * scale) in
  {| lb_scale := scale;
     scaledWidth := scaledWidth;
     scaledHeight := scaledHeight;
     extend :=
       {| Sharp.top := JS.Math_round ((targetSize - scaledHeight) / 2);
          Sharp.bottom :=
            targetSize - scaledHeight
            - JS.Math_round ((targetSize - scaledHeight) / 2);
          Sharp.left := JS.Math_round ((targetSize - scaledWidth) / 2);
          Sharp.right :=
            targetSize - scaledWidth
            - JS.Math_round ((targetSize - scaledWidth) / 2) |} |}%float.

(** What [preprocessImage] resolves to. *)
Record Preprocessed : Type := {
  buffer : list float;
  originalWidth : float;
  originalHeight : float;
  scale : float
}.

(** [output = outputs[Object.keys(outputs)[0]]]: a tensor, whose [data] may
    be missing. *)
Record Tensor : Type := {
  data : option (list float)
}.

Section Server.

Variable sharp : Sharp.Library.

(** [await session.run({ images: tensor })] followed by the selection of
    the first output, which is [undefined] when there is none. *)
Variable run : list float -> result (option Tensor).

(** [async function preprocessImage(imagePath)] *)
Definition preprocessImage (imagePath : string) : result Preprocessed :=
  metadata <- Sharp.metadata sharp imagePath ;;
  let originalWidth := Sharp.width metadata in
  let originalHeight := Sharp.height metadata in
  let lb := letterbox originalWidth originalHeight in
  rawBuffer <- Sharp.letterboxed sharp imagePath
                 (scaledWidth lb) (scaledHeight lb) (extend lb) ;;
  let float32Data :=
    map (fun b => fround (JS.of_Z (Z.of_N (Byte.to_N b)) / 255)%float)
        rawBuffer in
  Ok {| buffer := float32Data;
        originalWidth := originalWidth;
        originalHeight := originalHeight;
        scale := lb_scale lb |}.

(** Lines 120 to 127 of the [/predict] handler: the check of the model
    output and the call of [processDetections]. *)
Definition mapOutput (output : option Tensor)
    (originalWidth originalHeight scale : float) :
    result (list Detection) :=
  match output with
  | None => Throw "Invalid Model Output"
  | Some t =>
      match data t with
      | None => Throw "Invalid Model Output"
      | Some d => Ok (processDetections d originalWidth originalHeight scale)
      end
  end.

(** The [/predict] handler up to the detection list (lines 109 to 127);
    any error reaches the handler's [catch], which answers with a
    failure carrying the message. *)
Definition predict (imagePath : string) : result (list Detection) :=
  pre <- preprocessImage imagePath ;;
  output <- run (buffer pre) ;;
  mapOutput output (originalWidth pre) (originalHeight pre) (scale pre).

End Server.

(** ** The specification's view of the mapper *)

Module Spec.

(** RawDetectionRow: one row of model output, six fields in the fixed
    order. *)
Record RawDetectionRow : Type := {
  xCenter : float;
  yCenter : float;
  rowWidth : float;
  rowHeight : float;
  rowConfidence : float;
  rowClassId : float
}.

Definition values (r : RawDetectionRow) : list float :=
  [xCenter r; yCenter r; rowWidth r; rowHeight r; rowConfidence r;
   rowClassId r].

(** A flat sequence read as consecutive rows. *)
Fixpoint rows (raw : list float) : list RawDetectionRow :=
  match raw with
  | a :: b :: c :: d :: e :: f :: rest =>
      {| xCenter := a; yCenter := b; rowWidth := c; rowHeight := d;
         rowConfidence := e; rowClassId := f |} :: rows rest
  | _ => []
  end.

(** The confidence threshold, fixed at 0.5. *)
Definition threshold : float := 0.5%float.

(** A row is kept when its confidence is strictly above the threshold. *)
Definition survives (r : RawDetectionRow) : bool :=
  (threshold <? rowConfidence r)%float.

(** [originalValue = (canvasValue / targetSize) * originalDimension /
    scale]. *)
Definition originalValue (canvasValue originalDimension scale : float) : float :=
  ((canvasValue / targetSize) * originalDimension / scale)%float.

Definition mapped (originalWidth originalHeight scale : float)
    (r : RawDetectionRow) : Detection :=
  {| x := originalValue (xCenter r) originalWidth scale;
     y := originalValue (yCenter r) originalHeight scale;
     width := originalValue (rowWidth r) originalWidth scale;
     height := originalValue (rowHeight r) originalHeight scale;
     confidence := JS.Num (rowConfidence r);
     classId := JS.Num (rowClassId r) |}.

(** The letterbox numbers of section 4.1, for a target size [T]. *)
Definition scale (T originalWidth originalHeight : float) : float :=
  JS.Math_min (T / originalWidth)%float (T / originalHeight)%float.

Definition scaled (dimension scale : float) : float :=
  JS.Math_round (dimension * scale)%float.

Definition padBefore (T scaledSize : float) : float :=
  JS.Math_round ((T - scaledSize) / 2)%float.

Definition padAfter (T scaledSize : float) : float :=
  (T - scaledSize - padBefore T scaledSize)%float.

End Spec.

(** A partial row: only one with exactly five values has a confidence,
    and its class is then missing. *)
Definition partialRow (originalWidth originalHeight scale : float)
    (r : list float) : list Detection :=
  match r with
  | [a; b; c; d; e] =>
      if (0.5 <? e)%float
      then [ {| x := Spec.originalValue a originalWidth scale;
                y := Spec.originalValue b originalHeight scale;
                width := Spec.originalValue c originalWidth scale;
                height := Spec.originalValue d originalHeight scale;
                confidence := JS.Num e;
                classId := JS.Undefined |} ]
      else []
  | _ => []
  end.

(** The bytes of a raw buffer as stored in the [Float32Array]. *)
Definition normalized (rawBuffer : list Byte.byte) : list float :=
  map (fun b => fround (JS.of_Z (Z.of_N (Byte.to_N b)) / 255)%float) rawBuffer.

(** ** Test doubles for the collaborators *)

(** An image library that reports the size [w] x [h] for every path and
    whose letterbox pipeline yields [bytes] whatever it is asked. *)
Definition fakeSharp (w h : float) (bytes : list Byte.byte) : Sharp.Library :=
  {| Sharp.metadata := fun _ => Ok {| Sharp.width := w; Sharp.height := h |};
     Sharp.letterboxed := fun _ _ _ _ => Ok bytes |}.

(** An image library that cannot decode anything. *)
Definition brokenSharp : Sharp.Library :=
  {| Sharp.metadata := fun _ => Throw "Input file is missing";
     Sharp.letterboxed := fun _ _ _ _ => Throw "Input file is missing" |}.

(** An image library that reports the size [w] x [h] and, like sharp,
    refuses a resize to a width or height that is not at least 1. *)
Definition strictSharp (w h : float) : Sharp.Library :=
  {| Sharp.metadata := fun _ => Ok {| Sharp.width := w; Sharp.height := h |};
     Sharp.letterboxed := fun _ sw sh _ =>
       if (1 <=? sw)%float && (1 <=? sh)%float then Ok []
       else Throw "Expected positive integer" |}.

Definition tensor (raw : list float) : Tensor := {| data := Some raw |}.

(** The library refuses every resize to a width or height below 1 (or
    NaN). *)
Definition refusesEmptyResize (lib : Sharp.Library) : Prop :=
  forall (imagePath : string) (w h : float) (o : Sharp.ExtendOptions),
    (1 <=? w)%float && (1 <=? h)%float = false ->
    exists message, Sharp.letterboxed lib imagePath w h o = Throw message.

(** ** Binary64 values *)

Module Binary64.

(** Powers of two as reals. *)
Definition bpow (e : Z) : R := powerRZ 2 e.
Arguments bpow : simpl never.

(** The error allowed to a rounded result: one unit in the last place,
    relative in the normal range and absolute below it. *)
Definition err (x : R) : R := (bpow (-52) * x + bpow (-1074))%R.

(** What a correctly rounded result [r] of sign [sx] says about the exact
    positive value [x]. *)
Definition approx (r : spec_float) (sx : bool) (x : R) : Prop :=
  match r with
  | S754_zero s => s = sx /\ (x <= err x)%R
  | S754_finite s m e =>
      s = sx /\ (x - err x <= IZR (Zpos m) * bpow e <= x + err x)%R
  | S754_infinity s => (bpow 972 <= x + err x)%R
  | S754_nan => False
  end.

(** The real value of a float. *)
Definition SF2R (f : spec_float) : R :=
  match f with
  | S754_finite s m e =>
      if s then (- (IZR (Zpos m) * bpow e))%R else (IZR (Zpos m) * bpow e)%R
  | _ => 0%R
  end.

Definition val (f : float) : R := SF2R (Prim2SF f).

(** Positive finite floats, and those or +0. *)
Definition posfin (f : float) : Prop :=
  exists m e, Prim2SF f = S754_finite false m e.

Definition nonneg (f : float) : Prop := f = zero \/ posfin f.

End Binary64.

(** A dimension: a positive finite Number that is at least 1. *)
Definition dimension (v : float) : Prop :=
  Binary64.posfin v /\ (1 <= Binary64.val v < Binary64.bpow 1024)%R.

(** What is asked of one axis, for a scaled size [v]: it fits the canvas
    and the two paddings add up to the rest, exactly. *)
Definition axisFits (v : float) : bool :=
  (v <=? targetSize)%float &&
  PrimFloat.Leibniz.eqb
    (JS.Math_round ((targetSize - v) / 2)
     + (targetSize - v - JS.Math_round ((targetSize - v) / 2)))%float
    (targetSize - v)%float.

(** ** What the further properties are stated with *)

(** [rawBuffer[i] / 255.0] as stored in the [Float32Array] (line 77). *)
Definition pixel (b : Byte.byte) : float :=
  fround (JS.of_Z (Z.of_N (Byte.to_N b)) / 255)%float.

(** [new Float32Array(values)] (line 111): each element is stored as
    binary32. *)
Definition Float32Array (values : list float) : list float :=
  map fround values.

(** What the normalisation keeps of a byte: the value lies between 0 and
    1, is a binary32 number, and gives the byte back when scaled by 255
    and rounded. *)
Definition pixelChecks (b : Byte.byte) : bool :=
  (0 <=? pixel b)%float && (pixel b <=? 1)%float &&
  PrimFloat.Leibniz.eqb (fround (pixel b)) (pixel b) &&
  PrimFloat.Leibniz.eqb (JS.Math_round (pixel b * 255))
    (JS.of_Z (Z.of_N (Byte.to_N b))).

(** The padding that [letterbox] puts before (top, left) and after
    (bottom, right) a scaled size of [k] pixels. *)
Definition paddingFits (k : Z) : bool :=
  let v := JS.of_Z k in
  PrimFloat.Leibniz.eqb (JS.Math_round ((targetSize - v) / 2))%float
    (JS.of_Z ((641 - k) / 2)) &&
  PrimFloat.Leibniz.eqb
    (targetSize - v - JS.Math_round ((targetSize - v) / 2))%float
    (JS.of_Z ((640 - k) / 2)).

(** [0 < v && v < Infinity]: a positive finite Number. *)
Definition positiveFinite (v : float) : bool :=
  (0 <? v)%float && (v <? infinity)%float.

(** ** The routes of [server.js] *)

(** The values that travel through the routes: the fields of a request
    body, of a stored document and of a response. *)
Module Json.

Inductive value : Type :=
| Undefined
| Null
| Bool (b : bool)
| Num (n : float)
| Str (s : string)
| Arr (items : list value)
| Obj (fields : list (string * value)).

(** An object, as its properties in the order they were written. *)
Definition object : Type := list (string * value).

(** [o.key], which is [undefined] for a property that is not there. *)
Fixpoint get (o : object) (key : string) : value :=
  match o with
  | [] => Undefined
  | (k, v) :: rest => if String.eqb k key then v else get rest key
  end.

(** ToBoolean: what [if (v)], [!v] and [v || w] look at. *)
Definition truthy (v : value) : bool :=
  match v with
  | Undefined | Null => false
  | Bool b => b
  | Num n => negb ((n =? 0)%float || is_nan n)
  | Str s => negb (String.eqb s EmptyString)
  | Arr _ | Obj _ => true
  end.

(** [v === s] for a string literal [s]. *)
Definition equals (v : value) (s : string) : bool :=
  match v with
  | Str t => String.eqb t s
  | _ => false
  end.

Definition ofJS (v : JS.value) : value :=
  match v with
  | JS.Num n => Num n
  | JS.Undefined => Undefined
  end.

(** A detection as the object literal of [processDetections]. *)
Definition ofDetection (d : Detection) : value :=
  Obj [ ("x", Num (x d)); ("y", Num (y d));
        ("width", Num (width d)); ("height", Num (height d));
        ("confidence", ofJS (confidence d));
        ("classId", ofJS (classId d)) ]%string.

End Json.

(** The two user collections, [./models/User] and [./models/Admin]. *)
Inductive Model : Type := User | Admin.

(** The mongoose models, as far as the routes use them.  The documents
    are objects; [construct] is [new Model(fields)], which gives the
    document its [_id]. *)
Module Mongoose.
Record Library : Type := {
  findOne : Model -> Json.value -> result (option Json.object);
  construct : Model -> Json.object -> Json.object;
  save : Model -> Json.object -> result unit;
  create : Json.object -> result Json.object;
  findByIdAndUpdate :
    string -> Json.object -> result (option Json.object)
}.
End Mongoose.

Module Bcrypt.
Record Library : Type := {
  genSalt : Z -> result string;
  hash : Json.value -> string -> result string;
  compare : Json.value -> Json.value -> result bool
}.
End Bcrypt.

(** [jwt.sign(payload, secret, { expiresIn: "1d" })]; the secret is
    [undefined] when the environment has none. *)
Module Jwt.
Record Library : Type := {
  sign : Json.object -> option string -> result string
}.
End Jwt.

(** The checks of express-validator that the routes attach to a field of
    the body, and [validationResult(req).array()] for such a list of
    checks; the body is [None] when [req.body] is undefined, no parser
    having filled it. *)
Module Validator.
Inductive check : Type :=
| notEmpty
| isEmail
| isLength (min : Z)
| isIn (values : list string).

Record Library : Type := {
  validationResult :
    list (string * check) -> option Json.object -> list Json.value
}.
End Validator.

(** The calls by which a route acts on the world outside, in the order it
    makes them; a call is listed whether it succeeds or not. *)
Inductive effect : Type :=
| ConsoleLog (label : string) (v : Json.value)
| ConsoleError (label message : string)
| Save (model : Model) (fields : Json.object)
| Create (record : Json.object)
| Update (id : string) (update : Json.object)
| ToFile (input svg output : string).

(** [res.status(status).json(json)]; [res.json] alone has status 200. *)
Record response : Type := {
  status : Z;
  json : Json.object
}.

(** A route: the calls it has made and the response it has sent, or the
    error that escaped it. *)
Definition route (A : Type) : Type := list effect * result A.

Definition effects {A : Type} (m : route A) : list effect := fst m.

Definition outcome {A : Type} (m : route A) : result A := snd m.

Definition ret {A : Type} (a : A) : route A := ([], Ok a).

Definition await {A : Type} (r : result A) : route A := ([], r).

(** A call that has an effect, and its outcome. *)
Definition perform {A : Type} (e : effect) (r : result A) : route A :=
  ([e], r).

Definition andThen {A B : Type} (m : route A) (k : A -> route B) : route B :=
  match m with
  | (done, Ok a) => let (more, r) := k a in (done ++ more, r)
  | (done, Throw message) => (done, Throw message)
  end.

Notation "x <~ m ;; k" := (andThen m (fun x => k))
  (at level 61, m at next level, right associativity).

(** [try { body } catch (error) { handler }], the handler reading at most
    [error.message]. *)
Definition tryCatch {A : Type} (body : route A) (handler : string -> route A) :
    route A :=
  match body with
  | (done, Throw message) =>
      let (more, r) := handler message in (done ++ more, r)
  | finished => finished
  end.

Definition respond (status : Z) (json : Json.object) : route response :=
  ret {| status := status; json := json |}.

(** The double quote of the SVG attributes. *)
Definition quote : string :=
  String (Ascii.Ascii false true false false false true false false)
    EmptyString.

(** The line break of the SVG template literal. *)
Definition newline : string :=
  String (Ascii.Ascii false true false true false false false false)
    EmptyString.

(** The checks attached to [/register] (lines 200 to 204) and to [/login]
    (lines 242 to 246). *)
Definition registerChecks : list (string * Validator.check) :=
  [ ("name", Validator.notEmpty); ("email", Validator.isEmail);
    ("password", Validator.isLength 6) ]%string.

Definition loginChecks : list (string * Validator.check) :=
  [ ("email", Validator.isEmail); ("password", Validator.isLength 6);
    ("role", Validator.isIn ["user"; "admin"]) ]%string.

(** The failure that the [catch] of [/predict] answers with. *)
Definition predictFailure (message : string) : response :=
  {| status := 500;
     json := [ ("success", Json.Bool false);
               ("error", Json.Str "Failed to process image");
               ("details", Json.Str message) ]%string |}.

(** A route answers: it sends a response, with one of the statuses that
    the routes use. *)
Definition answers (m : route response) : Prop :=
  exists resp : response,
    outcome m = Ok resp /\
    (status resp = 200 \/ status resp = 400 \/ status resp = 500).

(** An answer that carries only an error text. *)
Definition refusal (status : Z) (error : string) : response :=
  {| status := status; json := [ ("error", Json.Str error) ]%string |}.

Section Routes.

Variable sharp : Sharp.Library.

(** [new ort.Tensor("float32", data, [1, 3, targetSize, targetSize])],
    [await session.run({ images: tensor })] and the selection of the first
    output, which is [undefined] when there is none. *)
Variable run : list float -> result (option Tensor).

(** [sharp(input).composite([{ input: Buffer.from(svg), blend: "over" }])
    .toFile(output)] *)
Variable composite : string -> string -> string -> result unit.

(** [uuidv4()], [path.join], [__dirname], the string that a template
    literal makes of a Number, and the messages of the TypeErrors raised
    by reading a property of [undefined] and by destructuring
    [undefined], which names the first property of the pattern. *)
Variable uuidv4 : string.
Variable path_join : list string -> string.
Variable dirname : string.
Variable toString : float -> string.
Variable cannotRead : string -> string.
Variable cannotDestructure : string -> string.

Variable mongoose : Mongoose.Library.
Variable bcrypt : Bcrypt.Library.
Variable jwt : Jwt.Library.
Variable validator : Validator.Library.

(** [const JWT_SECRET = process.env.JWT_SECRET;] *)
Variable JWT_SECRET : option string.

(** [const { first, ... } = req.body;], which throws when [req.body] is
    undefined. *)
Definition destructure (body : option Json.object) (first : string) :
    result Json.object :=
  match body with
  | Some fields => Ok fields
  | None => Throw (cannotDestructure first)
  end.

(** [!JWT_SECRET] *)
Definition secretMissing : bool :=
  match JWT_SECRET with
  | None => true
  | Some secret => String.eqb secret EmptyString
  end.

(** The template literal of lines 132 to 139. *)
Definition rect (d : Detection) : string :=
  ("<rect x=" ++ quote ++ toString (x d) ++ quote
   ++ " y=" ++ quote ++ toString (y d) ++ quote
   ++ " width=" ++ quote ++ toString (width d) ++ quote
   ++ " height=" ++ quote ++ toString (height d) ++ quote
   ++ " stroke=" ++ quote ++ "red" ++ quote
   ++ " fill=" ++ quote ++ "none" ++ quote
   ++ " stroke-width=" ++ quote ++ "2" ++ quote ++ "/>")%string.

Definition overlay (originalWidth originalHeight : float)
    (detections : list Detection) : string :=
  ("<svg width=" ++ quote ++ toString originalWidth ++ quote
   ++ " height=" ++ quote ++ toString originalHeight ++ quote ++ ">"
   ++ newline ++ "      " ++ String.concat EmptyString (map rect detections)
   ++ newline ++ "    </svg>")%string.

(** The object given to [Detection.create] (lines 146 to 153). *)
Definition record (imageId : string) (detections : list Detection)
    (originalWidth originalHeight : float) (userId : Json.value) :
    Json.object :=
  [ ("imageUrl",
     Json.Str ("http://localhost:5000/uploads/" ++ imageId ++ ".jpg"));
    ("detections", Json.Arr (map Json.ofDetection detections));
    ("originalWidth", Json.Num originalWidth);
    ("originalHeight", Json.Num originalHeight);
    ("userId", userId);
    ("status", Json.Str "pending") ]%string.

(** [app.post("/predict", upload.single("image"), ...)]: [file] is
    [req.file], which multer leaves undefined when the request has no
    file in the field [image]; [body] is [req.body], which is read only
    after the file, for a request that multer has parsed. *)
Definition predictRoute (file : option string) (body : Json.object) :
    route response :=
  tryCatch
    (imagePath <~ await (match file with
                         | Some path => Ok path
                         | None => Throw (cannotRead "path")
                         end) ;;
     pre <~ await (preprocessImage sharp imagePath) ;;
     output <~ await (run (Float32Array (buffer pre))) ;;
     detections <~ await (mapOutput output (originalWidth pre)
                            (originalHeight pre) (scale pre)) ;;
     let imageId := uuidv4 in
     let resultImagePath :=
       path_join [dirname; "uploads"; imageId ++ ".jpg"]%string in
     let svg := overlay (originalWidth pre) (originalHeight pre) detections in
     _ <~ perform (ToFile imagePath svg resultImagePath)
            (composite imagePath svg resultImagePath) ;;
     let document := record imageId detections (originalWidth pre)
                  (originalHeight pre) (Json.get body "userId") in
     detectionData <~ perform (Create document)
                        (Mongoose.create mongoose document) ;;
     respond 200
       [ ("success", Json.Bool true);
         ("detectionId", Json.get detectionData "_id");
         ("imageUrl", Json.get detectionData "imageUrl");
         ("detections", Json.Arr (map Json.ofDetection detections)) ]%string)
    (fun message =>
       _ <~ perform (ConsoleError "Prediction Error:" message) (Ok tt) ;;
       respond 500
         [ ("success", Json.Bool false);
           ("error", Json.Str "Failed to process image");
           ("details", Json.Str message) ]%string).

(** [app.put("/approve/:id", auth, ...)]: [role] is [req.user.role], as
    left by the [auth] middleware, and [id] is [req.params.id]. *)
Definition approveRoute (role : Json.value) (id : string) : route response :=
  if negb (Json.equals role "admin")
  then respond 403 [ ("error", Json.Str "Forbidden") ]%string
  else
    let update := [ ("status", Json.Str "approved") ]%string in
    detection <~ perform (Update id update)
                   (Mongoose.findByIdAndUpdate mongoose id update) ;;
    match detection with
    | None => respond 404 [ ("error", Json.Str "Detection not found") ]%string
    | Some detection =>
        respond 200 [ ("message", Json.Str "Image approved");
                      ("detection", Json.Obj detection) ]%string
    end.

(** [app.post("/register", [...], ...)]: [body] is [req.body], which is
    destructured before the [try]. *)
Definition registerRoute (body : option Json.object) : route response :=
  let errors := Validator.validationResult validator registerChecks body in
  match errors with
  | _ :: _ => respond 400 [ ("errors", Json.Arr errors) ]%string
  | [] =>
      body <~ await (destructure body "name") ;;
      let name := Json.get body "name" in
      let email := Json.get body "email" in
      let password := Json.get body "password" in
      tryCatch
        (user <~ await (Mongoose.findOne mongoose User email) ;;
         match user with
         | Some _ =>
             respond 400 [ ("error", Json.Str "User already exists") ]%string
         | None =>
             salt <~ await (Bcrypt.genSalt bcrypt 10) ;;
             hashedPassword <~ await (Bcrypt.hash bcrypt password salt) ;;
             let fields :=
               [ ("name", name); ("email", email);
                 ("password", Json.Str hashedPassword) ]%string in
             let user := Mongoose.construct mongoose User fields in
             _ <~ perform (Save User fields)
                    (Mongoose.save mongoose User user) ;;
             if secretMissing
             then await (Throw "JWT_SECRET is missing in .env file")
             else
               token <~ await (Jwt.sign jwt
                                 [ ("id", Json.get user "_id");
                                   ("role", Json.Str "user") ]%string
                                 JWT_SECRET) ;;
               respond 200
                 [ ("token", Json.Str token);
                   ("user",
                    Json.Obj [ ("id", Json.get user "_id");
                               ("name", Json.get user "name");
                               ("role", Json.Str "user") ]) ]%string
         end)
        (fun message =>
           _ <~ perform (ConsoleError "Registration Error:" message) (Ok tt) ;;
           respond 500
             [ ("error",
                Json.Str (if String.eqb message EmptyString
                          then "Server error" else message)) ]%string)
  end.

(** [app.post("/login", [...], ...)] *)
Definition loginRoute (body : option Json.object) : route response :=
  let errors := Validator.validationResult validator loginChecks body in
  match errors with
  | _ :: _ => respond 400 [ ("errors", Json.Arr errors) ]%string
  | [] =>
      body <~ await (destructure body "email") ;;
      let email := Json.get body "email" in
      let password := Json.get body "password" in
      let role := Json.get body "role" in
      _ <~ perform
             (ConsoleLog "I am inside login route"
                (Json.Obj [ ("email", email); ("password", password);
                            ("role", role) ]%string))
             (Ok tt) ;;
      tryCatch
        (let model := if Json.equals role "admin" then Admin else User in
         user <~ await (Mongoose.findOne mongoose model email) ;;
         match user with
         | None =>
             respond 400 [ ("error", Json.Str "Invalid credentials") ]%string
         | Some user =>
             isMatch <~ await (Bcrypt.compare bcrypt password
                                 (Json.get user "password")) ;;
             if negb isMatch
             then respond 400
                    [ ("error", Json.Str "Invalid credentials") ]%string
             else
               token <~ await (Jwt.sign jwt
                                 [ ("id", Json.get user "_id");
                                   ("role", Json.get user "role") ]%string
                                 JWT_SECRET) ;;
               respond 200
                 [ ("token", Json.Str token);
                   ("user",
                    Json.Obj [ ("id", Json.get user "_id");
                               ("name", Json.get user "name");
                               ("role", Json.get user "role") ]) ]%string
         end)
        (fun _ => respond 500 [ ("error", Json.Str "Server error") ]%string)
  end.

(** [app.post("/register-admin", ...)] *)
Definition registerAdminRoute (body : option Json.object) : route response :=
  body <~ await (destructure body "name") ;;
  let name := Json.get body "name" in
  let email := Json.get body "email" in
  let password := Json.get body "password" in
  if negb (Json.truthy name) || negb (Json.truthy email)
     || negb (Json.truthy password)
  then respond 400 [ ("error", Json.Str "All fields required") ]%string
  else
    tryCatch
      (admin <~ await (Mongoose.findOne mongoose Admin email) ;;
       match admin with
       | Some _ =>
           respond 400 [ ("error", Json.Str "Admin already exists") ]%string
       | None =>
           let fields :=
             [ ("name", name); ("email", email);
               ("password", password) ]%string in
           let admin := Mongoose.construct mongoose Admin fields in
           _ <~ perform (Save Admin fields)
                  (Mongoose.save mongoose Admin admin) ;;
           token <~ await (Jwt.sign jwt
                             [ ("id", Json.get admin "_id");
                               ("role", Json.Str "admin") ]%string
                             JWT_SECRET) ;;
           respond 200
             [ ("token", Json.Str token);
               ("admin",
                Json.Obj [ ("id", Json.get admin "_id");
                           ("name", Json.get admin "name");
                           ("role", Json.Str "admin") ]) ]%string
       end)
      (fun _ => respond 500 [ ("error", Json.Str "Server error") ]%string).

End Routes.

(** ** Test doubles for the collaborators of the routes *)

(** A store that holds [users] in both collections, finds them by their
    e-mail address, and accepts every write. *)
Definition fakeMongoose (users : list Json.object) : Mongoose.Library :=
  {| Mongoose.findOne := fun _ email =>
       Ok (find (fun user =>
                   match Json.get user "email", email with
                   | Json.Str a, Json.Str b => String.eqb a b
                   | _, _ => false
                   end) users);
     Mongoose.construct := fun _ fields => ("_id", Json.Str "64f0") :: fields;
     Mongoose.save := fun _ _ => Ok tt;
     Mongoose.create := fun document =>
       Ok (("_id", Json.Str "64f1") :: document);
     Mongoose.findByIdAndUpdate := fun id update =>
       Ok (Some (("_id", Json.Str id) :: update)) |}%string.

(** A hash that is the salt followed by the password. *)
Definition fakeBcrypt : Bcrypt.Library :=
  {| Bcrypt.genSalt := fun _ => Ok "$2a$10$";
     Bcrypt.hash := fun password salt =>
       match password with
       | Json.Str p => Ok (salt ++ p)
       | _ => Throw "Illegal arguments"
       end;
     Bcrypt.compare := fun password hashed =>
       match password, hashed with
       | Json.Str p, Json.Str h => Ok (String.eqb h ("$2a$10$" ++ p))
       | _, _ => Throw "Illegal arguments"
       end |}%string.

(** A signer that, like jsonwebtoken, refuses a missing secret. *)
Definition fakeJwt : Jwt.Library :=
  {| Jwt.sign := fun _ secret =>
       match secret with
       | Some (String _ _) => Ok "header.payload.signature"
       | _ => Throw "secretOrPrivateKey must have a value"
       end |}%string.

(** A model that finds one detection, and an overlay that is always
    written. *)
Definition fakeRun (input : list float) : result (option Tensor) :=
  Ok (Some (tensor [320; 320; 64; 64; 0.75; 0]%float)).

Definition fakeComposite (input svg output : string) : result unit := Ok tt.

(** [path.join] of segments that need no normalisation. *)
Definition fakeJoin (segments : list string) : string :=
  String.concat "/" segments.

(** The digits of a whole Number that is not negative, which is what
    a template literal makes of it; the other Numbers are not printed. *)
Definition showWhole (v : float) : string :=
  match Prim2SF v with
  | S754_zero _ => "0"%string
  | S754_finite false m e =>
      if 0 <=? e
      then NilEmpty.string_of_uint (N.to_uint (Z.to_N (Zpos m * 2 ^ e)))
      else if Zpos m mod 2 ^ (- e) =? 0
           then NilEmpty.string_of_uint
                  (N.to_uint (Z.to_N (Zpos m / 2 ^ (- e))))
           else "?"%string
  | _ => "?"%string
  end.

Definition fakeCannotRead (property : string) : string :=
  ("Cannot read properties of undefined (reading '" ++ property ++ "')")%string.

(** What [/predict] answers for that detection in a photo of 1280 x 720
    stored under the identifier [64f1]. *)
Definition exampleAnswer : response :=
  {| status := 200;
     json :=
       [ ("success", Json.Bool true);
         ("detectionId", Json.Str "64f1");
         ("imageUrl", Json.Str "http://localhost:5000/uploads/1b9d6bcd.jpg");
         ("detections",
          Json.Arr
            [ Json.Obj
                [ ("x", Json.Num 1280); ("y", Json.Num 720);
                  ("width", Json.Num 256); ("height", Json.Num 144);
                  ("confidence", Json.Num 0.75);
                  ("classId", Json.Num 0) ] ]) ]%string |}.

(** The message that Node gives for [const { first } = req.body]. *)
Definition fakeCannotDestructure (first : string) : string :=
  ("Cannot destructure property '" ++ first
   ++ "' of 'req.body' as it is undefined.")%string.

(** A validator that finds nothing wrong with a body that is there. *)
Definition lenientValidator : Validator.Library :=
  {| Validator.validationResult := fun _ body =>
       match body with
       | Some _ => []
       | None => [Json.Str "Invalid value"]
       end |}.

(** A stored user whose password is [secret1]. *)
Definition alice : Json.object :=
  [ ("_id", Json.Str "64e9"); ("name", Json.Str "Alice");
    ("email", Json.Str "alice@example.org");
    ("password", Json.Str "$2a$10$secret1"); ("role", Json.Str "user") ]%string.

(** The body of a request to register Bob. *)
Definition bob : Json.object :=
  [ ("name", Json.Str "Bob"); ("email", Json.Str "bob@example.org");
    ("password", Json.Str "secret2") ]%string.

(** ** The row loop *)

Section RowLoop.

Variables originalWidth originalHeight scale : float.

(** An iteration appends to the accumulator and never looks at it. *)
Lemma processRow_acc (rawData : list float) (i : nat) (acc : list Detection) :
  processRow rawData originalWidth originalHeight scale i acc =
  acc ++ processRow rawData originalWidth originalHeight scale i [].
Proof.
  unfold processRow.
  destruct (JS.gt _ _); [reflexivity | now rewrite app_nil_r].
Qed.

(** One unfolding of the loop. *)
Lemma processLoop_step (rawData : list float) (i : nat) (acc : list Detection) :
  (i < length rawData)%nat ->
  processLoop rawData originalWidth originalHeight scale i acc =
  processLoop rawData originalWidth originalHeight scale (i + 6)
    (processRow rawData originalWidth originalHeight scale i acc).
Proof.
  intros Hi. rewrite processLoop_equation_1.
  destruct (lt_dec i (length rawData)); [reflexivity | lia].
Qed.

Lemma processLoop_done (rawData : list float) (i : nat) (acc : list Detection) :
  (length rawData <= i)%nat ->
  processLoop rawData originalWidth originalHeight scale i acc = acc.
Proof.
  intros Hi. rewrite processLoop_equation_1.
  destruct (lt_dec i (length rawData)); [lia | reflexivity].
Qed.

Lemma processLoop_acc (rawData : list float) (i : nat) (acc : list Detection) :
  processLoop rawData originalWidth originalHeight scale i acc =
  acc ++ processLoop rawData originalWidth originalHeight scale i [].
Proof.
  remember (length rawData - i)%nat as n eqn:Hn.
  revert i acc Hn.
  induction n as [n IH] using lt_wf_ind; intros i acc Hn.
  destruct (lt_dec i (length rawData)) as [Hlt | Hge].
  - rewrite (processLoop_step _ _ acc Hlt), (processLoop_step _ _ [] Hlt).
    rewrite (IH (length rawData - (i + 6))%nat ltac:(lia) _ _ eq_refl).
    rewrite (IH (length rawData - (i + 6))%nat ltac:(lia) _
               (processRow _ _ _ _ _ []) eq_refl).
    rewrite (processRow_acc _ _ acc). now rewrite app_assoc.
  - rewrite !processLoop_done by lia. now rewrite app_nil_r.
Qed.

(** The slice of an iteration only sees the part of the array from the
    row start on. *)
Lemma slice_app (pre rawData : list float) (i : nat) :
  JS.slice (pre ++ rawData) (length pre + i) (length pre + i + 6) =
  JS.slice rawData i (i + 6).
Proof.
  unfold JS.slice.
  replace (length pre + i + 6 - (length pre + i))%nat with 6%nat by lia.
  replace (i + 6 - i)%nat with 6%nat by lia.
  rewrite skipn_app.
  replace (length pre + i - length pre)%nat with i by lia.
  rewrite (skipn_all2 pre) by lia. reflexivity.
Qed.

Lemma processRow_app (pre rawData : list float) (i : nat) (acc : list Detection) :
  processRow (pre ++ rawData) originalWidth originalHeight scale
    (length pre + i) acc =
  processRow rawData originalWidth originalHeight scale i acc.
Proof.
  unfold processRow. rewrite slice_app. reflexivity.
Qed.

(** Rows already consumed can be dropped from the array. *)
Lemma processLoop_app (pre rawData : list float) (i : nat) (acc : list Detection) :
  processLoop (pre ++ rawData) originalWidth originalHeight scale
    (length pre + i) acc =
  processLoop rawData originalWidth originalHeight scale i acc.
Proof.
  remember (length rawData - i)%nat as n eqn:Hn.
  revert i acc Hn.
  induction n as [n IH] using lt_wf_ind; intros i acc Hn.
  destruct (lt_dec i (length rawData)) as [Hlt | Hge].
  - rewrite (processLoop_step (pre ++ rawData)) by (rewrite length_app; lia).
    rewrite (processLoop_step rawData) by lia.
    rewrite processRow_app, <- Nat.add_assoc.
    apply (IH (length rawData - (i + 6))%nat); lia.
  - rewrite !processLoop_done; try reflexivity; try lia.
    rewrite length_app; lia.
Qed.

(** The loop over an array that starts with a full or partial row
    [r] of at most six values followed by [rest] (empty unless [r] is
    full): the contribution of [r], then the loop over [rest]. *)
Lemma processDetections_cons (r rest : list float) :
  r <> [] -> length r = 6%nat \/ rest = [] /\ (length r < 6)%nat ->
  processDetections (r ++ rest) originalWidth originalHeight scale =
  processRow r originalWidth originalHeight scale 0 [] ++
  processDetections rest originalWidth originalHeight scale.
Proof.
  intros Hne Hlen. unfold processDetections.
  assert (Hpos : (0 < length r)%nat) by (destruct r; [congruence | simpl; lia]).
  rewrite processLoop_step by (rewrite length_app; lia).
  rewrite processLoop_acc. f_equal.
  - unfold processRow, JS.slice. simpl skipn.
    destruct Hlen as [H6 | [-> Hlt]].
    + rewrite firstn_app, H6. simpl (0 + 6 - 0 - 6)%nat. simpl (firstn 0 rest).
      rewrite app_nil_r. reflexivity.
    + rewrite app_nil_r. reflexivity.
  - destruct Hlen as [H6 | [-> Hlt]].
    + replace (0 + 6)%nat with (length r + 0)%nat by lia.
      apply processLoop_app.
    + rewrite app_nil_r. rewrite !processLoop_done; simpl; try lia. reflexivity.
Qed.

End RowLoop.

(** Induction over an array six values at a time: the empty array, a
    partial row, and a full row in front of a shorter array. *)
Lemma rows_ind (P : list float -> Prop) :
  P [] ->
  (forall r, r <> [] -> (length r < 6)%nat -> P r) ->
  (forall a b c d e f rest, P rest -> P (a :: b :: c :: d :: e :: f :: rest)) ->
  forall raw, P raw.
Proof.
  intros Hnil Hpart Hfull raw.
  remember (length raw) as n eqn:Hn. revert raw Hn.
  induction n as [n IH] using lt_wf_ind; intros raw Hn.
  destruct raw as [| a [| b [| c [| d [| e [| f rest]]]]]];
    try (apply Hpart; [discriminate | simpl; lia]).
  - apply Hnil.
  - apply Hfull. apply (IH (length rest)); [subst n; simpl; lia | reflexivity].
Qed.

Lemma mod6_tail {A : Type} {a b c d e f : A} {rest : list A} :
  (length (a :: b :: c :: d :: e :: f :: rest) mod 6 = 0)%nat ->
  (length rest mod 6 = 0)%nat.
Proof.
  change (length (a :: b :: c :: d :: e :: f :: rest)) with (6 + length rest)%nat.
  replace (6 + length rest)%nat with (length rest + 1 * 6)%nat by lia.
  now rewrite Nat.Div0.mod_add.
Qed.

(** A non-empty row of fewer than six values cannot have a length that
    is a multiple of 6. *)
Ltac no_partial_row :=
  match goal with
  | Hlt : (length ?r < 6)%nat, Hmod : (length ?r mod 6 = 0)%nat, Hne : ?r <> [] |- _ =>
      rewrite Nat.mod_small in Hmod by exact Hlt;
      destruct r; [congruence | discriminate]
  end.

Section Mapper.

Variables originalWidth originalHeight scale : float.

Let pd (raw : list float) :=
  processDetections raw originalWidth originalHeight scale.

Lemma processDetections_nil : pd [] = [].
Proof. reflexivity. Qed.

(** A full row in front. *)
Lemma processDetections_full (a b c d e f : float) (rest : list float) :
  pd (a :: b :: c :: d :: e :: f :: rest) =
  (if (0.5 <? e)%float
   then [Spec.mapped originalWidth originalHeight scale
           {| Spec.xCenter := a; Spec.yCenter := b; Spec.rowWidth := c;
              Spec.rowHeight := d; Spec.rowConfidence := e;
              Spec.rowClassId := f |}]
   else []) ++ pd rest.
Proof.
  unfold pd.
  change (a :: b :: c :: d :: e :: f :: rest) with ([a; b; c; d; e; f] ++ rest).
  rewrite processDetections_cons; [| discriminate | left; reflexivity].
  f_equal.
Qed.

Lemma processDetections_partial (r : list float) :
  (length r < 6)%nat ->
  pd r = partialRow originalWidth originalHeight scale r.
Proof.
  intros Hlen. unfold pd.
  destruct r as [| a r]; [reflexivity |].
  rewrite <- (app_nil_r (a :: r)).
  rewrite processDetections_cons; [| discriminate | right; split; [reflexivity | exact Hlen]].
  rewrite app_nil_r.
  change (processDetections [] originalWidth originalHeight scale) with (@nil Detection).
  rewrite app_nil_r.
  destruct r as [| b [| c [| d [| e [| f r]]]]]; try reflexivity.
  simpl in Hlen. lia.
Qed.

(** Complete rows in front of anything. *)
Lemma processDetections_app (full rest : list float) :
  (length full mod 6 = 0)%nat ->
  pd (full ++ rest) = pd full ++ pd rest.
Proof.
  revert full. refine (rows_ind _ _ _ _).
  - reflexivity.
  - intros r Hne Hlt Hmod. no_partial_row.
  - intros a b c d e f full IH Hmod.
    simpl app. rewrite !processDetections_full, <- app_assoc.
    f_equal. apply IH.
    exact (mod6_tail Hmod).
Qed.

Lemma processDetections_rows (raw : list float) :
  (length raw mod 6 = 0)%nat ->
  pd raw =
  map (Spec.mapped originalWidth originalHeight scale)
      (filter Spec.survives (Spec.rows raw)).
Proof.
  revert raw. refine (rows_ind _ _ _ _).
  - reflexivity.
  - intros r Hne Hlt Hmod. no_partial_row.
  - intros a b c d e f rest IH Hmod.
    rewrite processDetections_full. simpl Spec.rows. simpl filter.
    unfold Spec.survives at 1, Spec.threshold. simpl Spec.rowConfidence.
    rewrite IH.
    + destruct (0.5 <? e)%float; reflexivity.
    + exact (mod6_tail Hmod).
Qed.

Lemma rows_values (raw : list float) :
  (length raw mod 6 = 0)%nat ->
  concat (map Spec.values (Spec.rows raw)) = raw.
Proof.
  revert raw. refine (rows_ind _ _ _ _).
  - reflexivity.
  - intros r Hne Hlt Hmod. no_partial_row.
  - intros a b c d e f rest IH Hmod.
    simpl. rewrite IH; [reflexivity |].
    exact (mod6_tail Hmod).
Qed.

Lemma processDetections_length (raw : list float) :
  (length (pd raw) <= (length raw + 5) / 6)%nat.
Proof.
  revert raw. refine (rows_ind _ _ _ _).
  - rewrite processDetections_nil. apply Nat.le_0_l.
  - intros r Hne Hlt. rewrite processDetections_partial by exact Hlt.
    assert (Hpos : (0 < length r)%nat) by (destruct r; [congruence | simpl; lia]).
    assert (H1 : (1 <= (length r + 5) / 6)%nat)
      by (apply Nat.div_le_lower_bound; lia).
    unfold partialRow.
    destruct r as [| a [| b [| c [| d [| e [| f r]]]]]]; simpl length in *;
      try lia.
    destruct (0.5 <? e)%float; simpl; lia.
  - intros a b c d e f rest IH.
    rewrite processDetections_full, length_app.
    change (length (a :: b :: c :: d :: e :: f :: rest)) with (6 + length rest)%nat.
    replace (6 + length rest + 5)%nat with ((length rest + 5) + 1 * 6)%nat by lia.
    rewrite Nat.div_add by lia.
    destruct (0.5 <? e)%float; simpl length; lia.
Qed.

End Mapper.

(** ** The mapper: filter, order and formula *)

(** C1. For a raw sequence whose length is a multiple of 6 and a scale
    above 0, the sequence is the concatenation of its rows in field order,
    and [processDetections] returns exactly the rows whose confidence is
    strictly above 0.5, in row order, each mapped field by field with
    [(canvasValue / targetSize) * originalDimension / scale], confidence and
    class copied; a row with confidence 0.5 is dropped and one with
    confidence 0.5001 is kept. *)
Theorem processDetections_filters_and_maps
    (raw : list float) (originalWidth originalHeight scale : float) :
  (length raw mod 6 = 0)%nat ->
  (0 <? scale)%float = true ->
  concat (map Spec.values (Spec.rows raw)) = raw /\
  processDetections raw originalWidth originalHeight scale =
    map (Spec.mapped originalWidth originalHeight scale)
        (filter Spec.survives (Spec.rows raw)) /\
  (forall a b c d k : float,
     processDetections [a; b; c; d; 0.5; k]%float
       originalWidth originalHeight scale = []) /\
  (forall a b c d k : float,
     processDetections [a; b; c; d; 0.5001; k]%float
       originalWidth originalHeight scale =
     [ {| x := ((a / targetSize) * originalWidth) / scale;
          y := ((b / targetSize) * originalHeight) / scale;
          width := ((c / targetSize) * originalWidth) / scale;
          height := ((d / targetSize) * originalHeight) / scale;
          confidence := JS.Num 0.5001;
          classId := JS.Num k |} ]%float).
Proof.
  intros Hmod _. split; [| split; [| split]].
  - apply rows_values, Hmod.
  - apply processDetections_rows, Hmod.
  - intros a b c d k. rewrite processDetections_full. reflexivity.
  - intros a b c d k. rewrite processDetections_full. reflexivity.
Qed.

Lemma processDetections_filters_and_maps_witness :
  processDetections
    [320; 320; 64; 64; 0.75; 0;  10; 10; 5; 5; 0.5; 1;  64; 32; 16; 8; 1; 3]%float
    1280 720 0.5 =
  [ {| x := 1280; y := 720; width := 256; height := 144;
       confidence := JS.Num 0.75; classId := JS.Num 0 |};
    {| x := 256; y := 72; width := 64; height := 18;
       confidence := JS.Num 1; classId := JS.Num 3 |} ]%float.
Proof.
  destruct (processDetections_filters_and_maps
              [320; 320; 64; 64; 0.75; 0;  10; 10; 5; 5; 0.5; 1;
               64; 32; 16; 8; 1; 3]%float
              1280 720 0.5 eq_refl eq_refl) as (_ & Hmap & _).
  rewrite Hmap. reflexivity.
Defined.

(** C8. An empty raw sequence gives an empty detection list and no
    error: the loop body never runs, the handler's check of the output
    lets an empty array through, and [/predict] then succeeds with no
    detection whenever the preprocessing did. *)
Theorem empty_output_gives_no_detection
    (originalWidth originalHeight scale : float) :
  processDetections [] originalWidth originalHeight scale = [] /\
  mapOutput (Some (tensor [])) originalWidth originalHeight scale = Ok [] /\
  (forall (sharp : Sharp.Library) (imagePath : string) (pre : Preprocessed),
     preprocessImage sharp imagePath = Ok pre ->
     predict sharp (fun _ => Ok (Some (tensor []))) imagePath = Ok []).
Proof.
  split; [reflexivity | split; [reflexivity |]].
  intros sharp imagePath pre Hpre. unfold predict. rewrite Hpre. reflexivity.
Qed.

Lemma empty_output_gives_no_detection_witness :
  predict (fakeSharp 1280 720 [Byte.x00]) (fun _ => Ok (Some (tensor [])))
    "uploads/road.jpg" = Ok [].
Proof.
  eapply (proj2 (proj2 (empty_output_gives_no_detection 1280 720 0.5))).
  reflexivity.
Defined.

(** C10. [processDetections] is a total function of the raw sequence,
    whatever its length [n]: it returns a list of at most [ceil (n / 6)]
    detections, and a trailing partial row of fewer than 5 values adds
    nothing to what the complete rows give. *)
Theorem processDetections_any_length
    (raw : list float) (originalWidth originalHeight scale : float) :
  (length (processDetections raw originalWidth originalHeight scale)
   <= (length raw + 5) / 6)%nat /\
  (forall full partial : list float,
     raw = full ++ partial ->
     (length full mod 6 = 0)%nat ->
     (length partial < 5)%nat ->
     processDetections raw originalWidth originalHeight scale =
     processDetections full originalWidth originalHeight scale).
Proof.
  split.
  - apply processDetections_length.
  - intros full partial -> Hfull Hpart.
    rewrite processDetections_app by exact Hfull.
    rewrite (processDetections_partial _ _ _ partial) by lia.
    destruct partial as [| a [| b [| c [| d [| e partial]]]]];
      try (simpl; now rewrite app_nil_r).
    simpl in Hpart. lia.
Qed.

Lemma processDetections_any_length_witness :
  processDetections [320; 320; 64; 64; 0.75; 0;  1; 2; 3; 0.75]%float 640 640 1 =
  processDetections [320; 320; 64; 64; 0.75; 0]%float 640 640 1.
Proof.
  apply (proj2 (processDetections_any_length
                  [320; 320; 64; 64; 0.75; 0;  1; 2; 3; 0.75]%float 640 640 1)
               [320; 320; 64; 64; 0.75; 0]%float [1; 2; 3; 0.75]%float
               eq_refl eq_refl).
  simpl. lia.
Defined.

(** ** The handler's check of the model output *)

(** C7, as the code has it. A raw sequence of length 7 is not rejected:
    the handler hands it to [processDetections], which returns the
    detection of the complete row, and [/predict] succeeds with it. *)
Lemma length_seven_is_accepted :
  length [320; 320; 64; 64; 0.75; 0; 1]%float = 7%nat /\
  mapOutput (Some (tensor [320; 320; 64; 64; 0.75; 0; 1]%float)) 640 640 1 =
  Ok [ {| x := 320; y := 320; width := 64; height := 64;
          confidence := JS.Num 0.75; classId := JS.Num 0 |} ]%float /\
  predict (fakeSharp 640 640 [])
    (fun _ => Ok (Some (tensor [320; 320; 64; 64; 0.75; 0; 1]%float)))
    "uploads/road.jpg" =
  Ok [ {| x := 320; y := 320; width := 64; height := 64;
          confidence := JS.Num 0.75; classId := JS.Num 0 |} ]%float.
Proof. repeat split; reflexivity. Qed.

(** C7, amended. The handler rejects only a missing output or missing
    data.  For a raw sequence whose length is not a multiple of 6 it
    succeeds, with the detections of the complete rows followed by that of
    the trailing partial row, which exists only when the row has five
    values and a confidence above 0.5, and has no class. *)
Theorem ragged_output_is_mapped
    (raw : list float) (originalWidth originalHeight scale : float) :
  (length raw mod 6 <> 0)%nat ->
  let k := (length raw - length raw mod 6)%nat in
  mapOutput None originalWidth originalHeight scale =
    Throw "Invalid Model Output" /\
  mapOutput (Some {| data := None |}) originalWidth originalHeight scale =
    Throw "Invalid Model Output" /\
  mapOutput (Some (tensor raw)) originalWidth originalHeight scale =
    Ok (processDetections (firstn k raw) originalWidth originalHeight scale
        ++ partialRow originalWidth originalHeight scale (skipn k raw)).
Proof.
  intros Hmod k. split; [reflexivity | split; [reflexivity |]].
  unfold mapOutput, tensor. simpl data. apply f_equal.
  assert (Hk : (k <= length raw)%nat) by (unfold k; lia).
  assert (Hlt : (length raw mod 6 < 6)%nat) by (apply Nat.mod_upper_bound; lia).
  rewrite <- (firstn_skipn k raw) at 1.
  rewrite processDetections_app.
  - apply f_equal, processDetections_partial.
    rewrite length_skipn. unfold k. lia.
  - rewrite length_firstn, Nat.min_l by exact Hk. unfold k.
    pose proof (Nat.div_mod_eq (length raw) 6) as Hdm.
    replace (length raw - length raw mod 6)%nat
      with (0 + (length raw / 6) * 6)%nat by lia.
    now rewrite Nat.Div0.mod_add.
Qed.

Lemma ragged_output_is_mapped_witness :
  mapOutput (Some (tensor [320; 320; 64; 64; 0.75; 0;  64; 64; 32; 32; 0.75]%float))
    640 640 1 =
  Ok [ {| x := 320; y := 320; width := 64; height := 64;
          confidence := JS.Num 0.75; classId := JS.Num 0 |};
       {| x := 64; y := 64; width := 32; height := 32;
          confidence := JS.Num 0.75; classId := JS.Undefined |} ]%float.
Proof.
  refine (eq_trans
    (proj2 (proj2 (ragged_output_is_mapped
       [320; 320; 64; 64; 0.75; 0;  64; 64; 32; 32; 0.75]%float 640 640 1 _))) _).
  - simpl. discriminate.
  - reflexivity.
Defined.

(** ** The preprocessor *)

(** C3. For an image whose metadata give a width and a height of at least
    1, [preprocessImage] asks the library for a resize to
    [round (originalWidth * scale)] by [round (originalHeight * scale)]
    with [scale = min (targetSize / originalWidth, targetSize /
    originalHeight)], padded by [padTop = round ((targetSize -
    scaledHeight) / 2)], [padBottom = targetSize - scaledHeight - padTop]
    and likewise left and right, and returns that scale; for 1280 x 720
    the numbers are 0.5, 640, 360, 140, 140, 0 and 0. *)
Theorem preprocessImage_letterbox
    (sharp : Sharp.Library) (imagePath : string) (w h : float) :
  Sharp.metadata sharp imagePath = Ok {| Sharp.width := w; Sharp.height := h |} ->
  (1 <=? w)%float = true ->
  (1 <=? h)%float = true ->
  let s := Spec.scale targetSize w h in
  let sw := Spec.scaled w s in
  let sh := Spec.scaled h s in
  preprocessImage sharp imagePath =
    (rawBuffer <- Sharp.letterboxed sharp imagePath sw sh
                    {| Sharp.top := Spec.padBefore targetSize sh;
                       Sharp.bottom := Spec.padAfter targetSize sh;
                       Sharp.left := Spec.padBefore targetSize sw;
                       Sharp.right := Spec.padAfter targetSize sw |} ;;
     Ok {| buffer := normalized rawBuffer;
           originalWidth := w;
           originalHeight := h;
           scale := s |}) /\
  letterbox 1280 720 =
    {| lb_scale := 0.5; scaledWidth := 640; scaledHeight := 360;
       extend := {| Sharp.top := 140; Sharp.bottom := 140;
                    Sharp.left := 0; Sharp.right := 0 |} |}%float.
Proof.
  intros Hmeta _ _ s sw sh. split.
  - unfold preprocessImage. rewrite Hmeta. reflexivity.
  - reflexivity.
Qed.

Lemma preprocessImage_letterbox_witness :
  preprocessImage (fakeSharp 1280 720 [Byte.x00; Byte.xff; Byte.x33])
    "uploads/road.jpg" =
  Ok {| buffer := [0; 1; 0.20000000298023224]%float;
        originalWidth := 1280; originalHeight := 720; scale := 0.5 |}%float.
Proof.
  refine (eq_trans
    (proj1 (preprocessImage_letterbox
       (fakeSharp 1280 720 [Byte.x00; Byte.xff; Byte.x33])
       "uploads/road.jpg" 1280 720 eq_refl eq_refl eq_refl)) _).
  reflexivity.
Defined.

(** A dimension of 0 is scaled to 0 or to NaN, whatever the scale. *)
Lemma zero_times (s : float) :
  Prim2SF (0 * s)%float = S754_nan \/
  exists sign, Prim2SF (0 * s)%float = S754_zero sign.
Proof.
  rewrite FloatAxioms.mul_spec. change (Prim2SF 0) with (S754_zero false).
  unfold SF64mul, SFmul. destruct (Prim2SF s); simpl; eauto.
Qed.

Lemma scaled_zero (s : float) :
  (1 <=? JS.Math_round (0 * s))%float = false.
Proof.
  assert (Hround : JS.Math_round (0 * s)%float = (0 * s)%float).
  { unfold JS.Math_round.
    destruct (zero_times s) as [H | [sign H]]; rewrite H; reflexivity. }
  rewrite Hround, FloatAxioms.leb_spec.
  destruct (zero_times s) as [H | [sign H]]; rewrite H; reflexivity.
Qed.

(** How [preprocessImage] fails: it has no check of its own, and fails
    exactly when a call into the image library fails, reading the metadata
    or running the resize and extend pipeline on the letterbox numbers,
    and then with the library's own error. *)
Lemma preprocessImage_throws
    (sharp : Sharp.Library) (imagePath message : string) :
  preprocessImage sharp imagePath = Throw message <->
  Sharp.metadata sharp imagePath = Throw message \/
  exists metadata : Sharp.Metadata,
    Sharp.metadata sharp imagePath = Ok metadata /\
    let lb := letterbox (Sharp.width metadata) (Sharp.height metadata) in
    Sharp.letterboxed sharp imagePath (scaledWidth lb) (scaledHeight lb)
      (extend lb) = Throw message.
Proof.
  unfold preprocessImage.
  destruct (Sharp.metadata sharp imagePath) as [metadata | msg]; simpl.
  - destruct (Sharp.letterboxed sharp imagePath _ _ _) as [raw | msg] eqn:Hraw;
      simpl.
    + split; [discriminate |].
      intros [H | (metadata' & Hmeta & Hthrow)]; [discriminate |].
      injection Hmeta as <-. simpl in Hthrow. congruence.
    + split.
      * intros H. right. exists metadata. split; [reflexivity |].
        simpl. congruence.
      * intros [H | (metadata' & Hmeta & Hthrow)]; [discriminate |].
        injection Hmeta as <-. simpl in Hthrow. congruence.
  - split.
    + intros H. left. congruence.
    + intros [H | (metadata' & Hmeta & _)]; [congruence | discriminate].
Qed.

(** An error of [preprocessImage] is the error of its caller, whatever
    the model would answer. *)
Lemma preprocessImage_throws_to_caller
    (sharp : Sharp.Library) (imagePath message : string) :
  preprocessImage sharp imagePath = Throw message ->
  forall run : list float -> result (option Tensor),
    predict sharp run imagePath = Throw message.
Proof. intros H run. unfold predict. rewrite H. reflexivity. Qed.

(** C9. With an image library that, like sharp, refuses a resize to a
    width or height that is not at least 1, [preprocessImage] fails
    whenever the image cannot be decoded, be it when its metadata is read
    or when its pixels are, and whenever its width or height is reported
    as 0, the scaled size being then 0 or NaN.  It returns no buffer and
    no transform; the error is the library's own, and it reaches the
    caller, which fails with it whatever the model would answer.  The
    check of the size is the library's: [preprocessImage] has none. *)
Theorem preprocessImage_rejects_an_empty_image
    (sharp : Sharp.Library) (imagePath : string) :
  refusesEmptyResize sharp ->
  (forall message : string,
     Sharp.metadata sharp imagePath = Throw message \/
     (exists metadata : Sharp.Metadata,
        Sharp.metadata sharp imagePath = Ok metadata /\
        let lb := letterbox (Sharp.width metadata) (Sharp.height metadata) in
        Sharp.letterboxed sharp imagePath (scaledWidth lb) (scaledHeight lb)
          (extend lb) = Throw message) ->
     preprocessImage sharp imagePath = Throw message /\
     forall run : list float -> result (option Tensor),
       predict sharp run imagePath = Throw message) /\
  (forall metadata : Sharp.Metadata,
     Sharp.metadata sharp imagePath = Ok metadata ->
     Sharp.width metadata = 0%float \/ Sharp.height metadata = 0%float ->
     exists message : string,
       (let lb := letterbox (Sharp.width metadata) (Sharp.height metadata) in
        Sharp.letterboxed sharp imagePath (scaledWidth lb) (scaledHeight lb)
          (extend lb) = Throw message) /\
       preprocessImage sharp imagePath = Throw message /\
       forall run : list float -> result (option Tensor),
         predict sharp run imagePath = Throw message).
Proof.
  intros Hrefuses. split.
  - intros message H. apply preprocessImage_throws in H.
    split; [exact H | now apply preprocessImage_throws_to_caller].
  - intros metadata Hmeta Hzero.
    pose (lb := letterbox (Sharp.width metadata) (Sharp.height metadata)).
    destruct (Hrefuses imagePath (scaledWidth lb) (scaledHeight lb) (extend lb))
      as [message Hthrow].
    + unfold lb, letterbox. cbv zeta. cbn [scaledWidth scaledHeight].
      destruct Hzero as [-> | ->]; rewrite scaled_zero;
        [reflexivity | apply andb_false_r].
    + assert (Hpre : preprocessImage sharp imagePath = Throw message).
      { apply preprocessImage_throws. right. exists metadata.
        split; [exact Hmeta | exact Hthrow]. }
      exists message. split; [exact Hthrow |].
      split; [exact Hpre | now apply preprocessImage_throws_to_caller].
Qed.

Lemma preprocessImage_rejects_an_empty_image_witness :
  (preprocessImage brokenSharp "uploads/corrupt.jpg" =
     Throw "Input file is missing" /\
   predict brokenSharp (fun _ => Ok (Some (tensor []))) "uploads/corrupt.jpg" =
     Throw "Input file is missing") /\
  exists message : string,
    (let lb := letterbox 0 720 in
     Sharp.letterboxed (strictSharp 0 720) "uploads/empty.png"
       (scaledWidth lb) (scaledHeight lb) (extend lb) = Throw message) /\
    preprocessImage (strictSharp 0 720) "uploads/empty.png" = Throw message /\
    forall run : list float -> result (option Tensor),
      predict (strictSharp 0 720) run "uploads/empty.png" = Throw message.
Proof.
  split.
  - assert (Hbroken : refusesEmptyResize brokenSharp).
    { intros imagePath w h o _. eexists. reflexivity. }
    destruct (proj1 (preprocessImage_rejects_an_empty_image brokenSharp
                       "uploads/corrupt.jpg" Hbroken)
                "Input file is missing"%string (or_introl eq_refl))
      as [Hpre Hcaller].
    split; [exact Hpre | apply Hcaller].
  - assert (Hstrict : refusesEmptyResize (strictSharp 0 720)).
    { intros imagePath w h o H. eexists. simpl. rewrite H. reflexivity. }
    exact (proj2 (preprocessImage_rejects_an_empty_image (strictSharp 0 720)
                    "uploads/empty.png" Hstrict)
             {| Sharp.width := 0; Sharp.height := 720 |} eq_refl
             (or_introl eq_refl)).
Defined.

(** ** Where the mapper leaves the image *)

(** C2, evaluated. For a 1280 x 720 image the letterbox scale is
    [targetSize / 1280 = 0.5] and the wider axis is scaled to exactly
    [targetSize]; a confident row centred on the canvas, at
    [targetSize / 2 = 320] on both axes, is mapped to (1280, 720), the
    bottom right corner of the image, and not to its centre (640, 360). *)
Theorem canvas_centre_of_1280x720 :
  lb_scale (letterbox 1280 720) = (targetSize / 1280)%float /\
  lb_scale (letterbox 1280 720) = 0.5%float /\
  scaledWidth (letterbox 1280 720) = targetSize /\
  (targetSize / 2)%float = 320%float /\
  processDetections [320; 320; 64; 64; 0.75; 0]%float 1280 720
    (lb_scale (letterbox 1280 720)) =
  [ {| x := 1280; y := 720; width := 256; height := 144;
       confidence := JS.Num 0.75; classId := JS.Num 0 |} ]%float /\
  (1280 / 2 =? 1280)%float = false /\
  (720 / 2 =? 720)%float = false.
Proof. repeat split; reflexivity. Qed.

(** C5, evaluated. For the same image a confident 20 x 20 box around the
    canvas point (600, 320) has its four values between 0 and
    [targetSize], and lies inside the canvas and inside the rows 140 to
    500 that hold the image; it is mapped to x = 2400 and width = 80, so
    x + width is 2480, far to the right of the 1280 columns of the image,
    and y + height is 765, below its 720 rows. *)
Theorem box_inside_canvas_of_1280x720 :
  forallb (fun v => (0 <=? v)%float && (v <=? targetSize)%float)
    [600; 320; 20; 20]%float = true /\
  Sharp.top (extend (letterbox 1280 720)) = 140%float /\
  processDetections [600; 320; 20; 20; 0.75; 0]%float 1280 720
    (lb_scale (letterbox 1280 720)) =
  [ {| x := 2400; y := 720; width := 80; height := 45;
       confidence := JS.Num 0.75; classId := JS.Num 0 |} ]%float /\
  (2400 + 80 =? 2480)%float = true /\
  (720 + 45 =? 765)%float = true /\
  (1280 + 1 <? 2400 + 80)%float = true /\
  (720 + 1 <? 720 + 45)%float = true.
Proof. repeat split; reflexivity. Qed.

(** C6, evaluated. For a 640 x 640 image the scale is 1; a confident
    100 x 100 box centred on (320, 320) has its top-left corner at
    (270, 270), but the detection carries x = 320 and y = 320, the mapped
    centre. *)
Theorem x_and_y_are_the_mapped_centre :
  lb_scale (letterbox 640 640) = 1%float /\
  processDetections [320; 320; 100; 100; 0.75; 0]%float 640 640
    (lb_scale (letterbox 640 640)) =
  [ {| x := 320; y := 320; width := 100; height := 100;
       confidence := JS.Num 0.75; classId := JS.Num 0 |} ]%float /\
  (320 - 100 / 2 =? 270)%float = true /\
  (320 =? 270)%float = false.
Proof. repeat split; reflexivity. Qed.

(** ** Binary64 arithmetic: how far a rounded result is from the exact one

    [FloatAxioms] specifies each primitive operation as the function of
    [SpecFloat] on the decoded operands.  The lemmas below follow these
    functions.  [binary_round_aux] cuts the exact mantissa down to 53
    digits and rounds the last one, so its result is within one unit in
    the last place of the exact value ([binary_round_aux_approx]);
    multiplication hands it the exact product and division the integer
    quotient with the position of the remainder ([mul_approx],
    [div_approx]); and canonical representations are ordered like their
    values ([ltb_posfin], [leb_posfin]). *)

Module Binary64Facts.
Import Binary64.

Lemma bpow_pos (e : Z) : (0 < bpow e)%R.
Proof. apply powerRZ_lt. lra. Qed.

Lemma bpow_add (a b : Z) : bpow (a + b) = (bpow a * bpow b)%R.
Proof. apply powerRZ_add. lra. Qed.

Lemma bpow_IZR (e : Z) : 0 <= e -> bpow e = IZR (2 ^ e).
Proof.
  intros He. unfold bpow.
  rewrite <- (Z2Nat.id e He) at 1.
  rewrite <- pow_powerRZ, pow_IZR, Z2Nat.id by exact He. reflexivity.
Qed.

Lemma bpow_ge_1 (e : Z) : 0 <= e -> (1 <= bpow e)%R.
Proof.
  intros He. rewrite bpow_IZR by exact He.
  apply IZR_le. pose proof (Z.pow_pos_nonneg 2 e ltac:(lia) He). lia.
Qed.

Lemma bpow_le (a b : Z) : a <= b -> (bpow a <= bpow b)%R.
Proof.
  intros Hab. replace b with (a + (b - a)) by lia. rewrite bpow_add.
  pose proof (bpow_pos a). pose proof (bpow_ge_1 (b - a) ltac:(lia)). nra.
Qed.

(** The format: 53 bits of precision, exponents from -1074. *)
Lemma fexp_eq (e : Z) : fexp prec emax e = Z.max (e - 53) (-1074).
Proof. reflexivity. Qed.

(** The number of binary digits of a mantissa. *)
Lemma digits_bounds (m : positive) :
  2 ^ (Zpos (digits2_pos m) - 1) <= Zpos m < 2 ^ Zpos (digits2_pos m).
Proof.
  induction m as [m IH | m IH |]; simpl digits2_pos.
  - rewrite Pos2Z.inj_succ, Pos2Z.inj_xI.
    replace (Z.succ (Zpos (digits2_pos m)) - 1) with (Z.succ (Zpos (digits2_pos m) - 1)) by lia.
    rewrite !Z.pow_succ_r by lia.
    set (A := 2 ^ (Zpos (digits2_pos m) - 1)) in *.
    set (B := 2 ^ Zpos (digits2_pos m)) in *. lia.
  - rewrite Pos2Z.inj_succ. change (Zpos m~0) with (2 * Zpos m).
    replace (Z.succ (Zpos (digits2_pos m)) - 1) with (Z.succ (Zpos (digits2_pos m) - 1)) by lia.
    rewrite !Z.pow_succ_r by lia.
    set (A := 2 ^ (Zpos (digits2_pos m) - 1)) in *.
    set (B := 2 ^ Zpos (digits2_pos m)) in *. lia.
  - simpl. lia.
Qed.

Lemma Zdigits2_bounds (m : Z) :
  0 < m -> 2 ^ (Zdigits2 m - 1) <= m < 2 ^ Zdigits2 m.
Proof.
  destruct m as [| p | p]; try lia. intros _. apply digits_bounds.
Qed.

Lemma Zdigits2_nonneg (m : Z) : 0 <= Zdigits2 m.
Proof. destruct m; simpl; lia. Qed.

Lemma Zdigits2_le (m k : Z) : 0 <= k -> 0 <= m < 2 ^ k -> Zdigits2 m <= k.
Proof.
  intros Hk [H0 Hm].
  destruct (Z.eq_dec m 0) as [-> | Hne]; [simpl; lia |].
  pose proof (Zdigits2_bounds m ltac:(lia)) as [Hlo _].
  pose proof (Zdigits2_nonneg m).
  destruct (Z_lt_le_dec k (Zdigits2 m)) as [Hlt | Hle]; [| exact Hle].
  exfalso.
  assert (2 ^ k <= 2 ^ (Zdigits2 m - 1)) by (apply Z.pow_le_mono_r; lia).
  lia.
Qed.

(** Shifting right: the mantissa is halved at each step. *)
Lemma shr_1_m (mrs : shr_record) :
  0 <= shr_m mrs -> shr_m (shr_1 mrs) = shr_m mrs / 2.
Proof.
  destruct mrs as [m r s]. simpl shr_m at 1 2. intros Hm.
  destruct m as [| [p | p |] | p]; try lia; unfold shr_1, shr_m.
  - reflexivity.
  - apply (Z.div_unique (Zpos p~1) 2 (Zpos p) 1); lia.
  - apply (Z.div_unique (Zpos p~0) 2 (Zpos p) 0); lia.
  - reflexivity.
Qed.

Lemma iter_shr_m (p : positive) (mrs : shr_record) :
  0 <= shr_m mrs ->
  shr_m (SpecFloat.iter_pos shr_1 p mrs) = shr_m mrs / 2 ^ Zpos p.
Proof.
  revert mrs.
  assert (Hnn : forall a k, 0 <= a -> 0 <= a / 2 ^ Zpos k).
  { intros a k Ha. apply Z.div_pos; [exact Ha | apply Z.pow_pos_nonneg; lia]. }
  induction p as [p IH | p IH |]; intros mrs Hm; simpl SpecFloat.iter_pos.
  - rewrite IH, IH, shr_1_m; try assumption.
    + rewrite !Z.div_div by (try apply Z.pow_pos_nonneg; lia).
      f_equal. replace (Zpos p~1) with (1 + Zpos p + Zpos p) by lia.
      rewrite !Z.pow_add_r by lia. change (2 ^ 1) with 2. ring.
    + rewrite shr_1_m by assumption. apply Z.div_pos; lia.
    + rewrite IH.
      * apply Hnn. rewrite shr_1_m by assumption. apply Z.div_pos; lia.
      * rewrite shr_1_m by assumption. apply Z.div_pos; lia.
  - rewrite IH, IH; try assumption.
    + rewrite !Z.div_div by (try apply Z.pow_pos_nonneg; lia).
      f_equal. replace (Zpos p~0) with (Zpos p + Zpos p) by lia.
      rewrite !Z.pow_add_r by lia. ring.
    + rewrite IH by assumption. apply Hnn, Hm.
  - rewrite shr_1_m by assumption. reflexivity.
Qed.

Lemma shr_m_of_loc (m : Z) (l : location) : shr_m (shr_record_of_loc m l) = m.
Proof. destruct l as [| []]; reflexivity. Qed.

Lemma loc_of_loc (m : Z) (l : location) :
  loc_of_shr_record (shr_record_of_loc m l) = l.
Proof. destruct l as [| []]; reflexivity. Qed.

Lemma shr_fexp_spec (m e : Z) (l : location) (mrs : shr_record) (e' : Z) :
  0 <= m ->
  shr_fexp prec emax m e l = (mrs, e') ->
  let n := fexp prec emax (Zdigits2 m + e) - e in
  (0 < n /\ shr_m mrs = m / 2 ^ n /\ e' = e + n) \/
  (n <= 0 /\ mrs = shr_record_of_loc m l /\ e' = e).
Proof.
  intros Hm Hshr n. unfold shr_fexp, shr in Hshr. fold n in Hshr.
  destruct n as [| p | p] eqn:Hn; injection Hshr as <- <-.
  - right. repeat split; lia.
  - left. repeat split; try lia.
    rewrite iter_shr_m; rewrite shr_m_of_loc; [reflexivity | exact Hm].
  - right. repeat split; lia.
Qed.

Lemma round_nearest_even_cases (m : Z) (l : location) :
  round_nearest_even m l = m \/ round_nearest_even m l = m + 1.
Proof.
  destruct l as [| []]; simpl; auto. destruct (Z.even m); auto.
Qed.

Lemma err_nonneg (x : R) : (0 <= x -> 0 <= err x)%R.
Proof.
  intros Hx. unfold err.
  pose proof (bpow_pos (-52)). pose proof (bpow_pos (-1074)). nra.
Qed.

(** First stage of [binary_round_aux]: truncation to the target exponent
    and rounding of the last digit. *)
Lemma round_stage1 (mx ex : Z) (lx : location) (x : R) (mrs' : shr_record) (e' : Z) :
  0 <= mx ->
  (IZR mx * bpow ex <= x < (IZR mx + 1) * bpow ex)%R ->
  (lx = loc_Exact -> x = (IZR mx * bpow ex)%R) ->
  (lx = loc_Exact \/ (bpow ex <= err x)%R) ->
  shr_fexp prec emax mx ex lx = (mrs', e') ->
  let m2 := round_nearest_even (shr_m mrs') (loc_of_shr_record mrs') in
  0 <= m2 <= 2 ^ 53 /\ -1074 <= e' /\
  (x - err x <= IZR m2 * bpow e' <= x + err x)%R.
Proof.
  intros Hmx Hx Hexact Hgran Hshr m2.
  assert (Hx0 : (0 <= x)%R).
  { pose proof (bpow_pos ex). pose proof (IZR_le 0 mx Hmx). nra. }
  pose proof (err_nonneg x Hx0) as Herr.
  pose proof (Zdigits2_nonneg mx) as Hd0.
  assert (Hdig : mx < 2 ^ Zdigits2 mx \/ mx = 0).
  { destruct (Z.eq_dec mx 0); [now right | left].
    apply Zdigits2_bounds. lia. }
  destruct (shr_fexp_spec mx ex lx mrs' e' Hmx Hshr) as [(Hn & Hm' & He') | (Hn & Hm' & He')];
    rewrite fexp_eq in Hn.
  - (* the mantissa is shifted right by [n] digits *)
    set (n := fexp prec emax (Zdigits2 mx + ex) - ex) in *.
    assert (Hn' : n = Z.max (Zdigits2 mx + ex - 53) (-1074) - ex) by reflexivity.
    set (m' := shr_m mrs') in *.
    assert (H2n : 0 < 2 ^ n) by (apply Z.pow_pos_nonneg; lia).
    assert (Hlo : m' * 2 ^ n <= mx).
    { rewrite Hm', Z.mul_comm. apply Z.mul_div_le. exact H2n. }
    assert (Hhi : mx + 1 <= (m' + 1) * 2 ^ n).
    { pose proof (Z.mul_succ_div_gt mx (2 ^ n) H2n) as H. rewrite <- Hm' in H. lia. }
    assert (Hm0 : 0 <= m') by (rewrite Hm'; apply Z.div_pos; lia).
    assert (Hm53 : m' < 2 ^ 53).
    { rewrite Hm'. apply Z.div_lt_upper_bound; [exact H2n |].
      rewrite <- Z.pow_add_r by lia.
      destruct Hdig as [Hlt | ->]; [| apply Z.pow_pos_nonneg; lia].
      eapply Z.lt_le_trans; [exact Hlt |]. apply Z.pow_le_mono_r; lia. }
    assert (Hbe : bpow e' = (IZR (2 ^ n) * bpow ex)%R).
    { rewrite He', Z.add_comm, bpow_add, bpow_IZR by lia. reflexivity. }
    assert (Hrlo : (IZR m' * bpow e' <= x)%R).
    { rewrite Hbe, <- Rmult_assoc, <- mult_IZR.
      pose proof (IZR_le _ _ Hlo). pose proof (bpow_pos ex). nra. }
    assert (Hrhi : (x <= (IZR m' + 1) * bpow e')%R).
    { rewrite Hbe, <- Rmult_assoc. replace 1%R with (IZR 1) by reflexivity.
      rewrite <- plus_IZR, <- mult_IZR.
      pose proof (IZR_le _ _ Hhi) as H. rewrite plus_IZR in H.
      pose proof (bpow_pos ex). simpl in H. nra. }
    assert (Hulp : (bpow e' <= err x)%R).
    { unfold err. pose proof (bpow_pos (-52)). pose proof (bpow_pos (-1074)).
      destruct (Z_le_dec (Zdigits2 mx + ex - 53) (-1074)) as [Hsub | Hnorm].
      - replace e' with (-1074) by lia. nra.
      - assert (He'' : e' = -52 + (Zdigits2 mx - 1 + ex)) by lia.
        destruct Hdig as [Hlt | ->]; [| simpl in *; lia].
        assert (Hmpos : 0 < mx).
        { destruct (Z.eq_dec mx 0) as [-> |]; [simpl in *; lia | lia]. }
        pose proof (Zdigits2_bounds mx Hmpos) as [Hdlo _].
        assert (Hd1 : 1 <= Zdigits2 mx).
        { destruct mx; simpl; lia. }
        rewrite He'', bpow_add.
        assert ((bpow (Zdigits2 mx - 1 + ex) <= x)%R).
        { rewrite bpow_add, bpow_IZR by lia.
          pose proof (IZR_le _ _ Hdlo). pose proof (bpow_pos ex). nra. }
        nra. }
    split; [| split; [lia |]].
    + unfold m2. fold m'.
      destruct (round_nearest_even_cases m' (loc_of_shr_record mrs')); lia.
    + unfold m2. fold m'. pose proof (bpow_pos e').
      destruct (round_nearest_even_cases m' (loc_of_shr_record mrs')) as [-> | ->];
        [| rewrite plus_IZR; simpl]; nra.
  - (* no shift: the mantissa already fits *)
    subst mrs' e'. unfold m2. rewrite shr_m_of_loc, loc_of_loc.
    assert (Hd53 : Zdigits2 mx <= 53) by lia.
    assert (Hm53 : mx < 2 ^ 53).
    { destruct Hdig as [Hlt | ->]; [| apply Z.pow_pos_nonneg; lia].
      eapply Z.lt_le_trans; [exact Hlt |]. apply Z.pow_le_mono_r; lia. }
    split; [| split; [lia |]].
    + destruct (round_nearest_even_cases mx lx); lia.
    + destruct Hgran as [-> | Hgran].
      * simpl. rewrite (Hexact eq_refl) at 2 3. rewrite <- (Hexact eq_refl). lra.
      * pose proof (bpow_pos ex).
        destruct (round_nearest_even_cases mx lx) as [-> | ->];
          [| rewrite plus_IZR; simpl]; nra.
Qed.

(** Second stage: a carry out of the 53 bits is absorbed by one more
    shift, which loses nothing. *)
Lemma round_stage2 (m2 e' : Z) (mrs'' : shr_record) (e'' : Z) :
  0 <= m2 <= 2 ^ 53 -> -1074 <= e' ->
  shr_fexp prec emax m2 e' loc_Exact = (mrs'', e'') ->
  0 <= shr_m mrs'' /\ (shr_m mrs'' = 0 <-> m2 = 0) /\
  (IZR (shr_m mrs'') * bpow e'' = IZR m2 * bpow e')%R.
Proof.
  intros Hm2 He' Hshr.
  destruct (shr_fexp_spec m2 e' loc_Exact mrs'' e'' ltac:(lia) Hshr)
    as [(Hn & Hm & He) | (Hn & Hm & He)]; rewrite fexp_eq in Hn.
  - (* a shift happens only for the carry [m2 = 2^53] *)
    destruct (Z.eq_dec m2 (2 ^ 53)) as [-> | Hne].
    + rewrite fexp_eq in Hm, He. change (Zdigits2 (2 ^ 53)) with 54 in Hm, He.
      replace (Z.max (54 + e' - 53) (-1074) - e') with 1 in Hm, He by lia.
      rewrite Hm, He. change (2 ^ 53 / 2 ^ 1) with (2 ^ 52).
      split; [discriminate | split; [split; discriminate |]].
      rewrite bpow_add. replace (bpow 1) with 2%R by (unfold bpow; simpl; lra).
      change (2 ^ 53) with (2 * 2 ^ 52). rewrite mult_IZR. ring.
    + exfalso.
      pose proof (Zdigits2_le m2 53 ltac:(lia) ltac:(lia)). lia.
  - subst mrs'' e''. simpl. split; [lia | split; [tauto | reflexivity]].
Qed.

Lemma binary_round_aux_approx (sx : bool) (mx ex : Z) (lx : location) (x : R) :
  0 <= mx ->
  (IZR mx * bpow ex <= x < (IZR mx + 1) * bpow ex)%R ->
  (lx = loc_Exact -> x = (IZR mx * bpow ex)%R) ->
  (lx = loc_Exact \/ (bpow ex <= err x)%R) ->
  approx (binary_round_aux prec emax sx mx ex lx) sx x.
Proof.
  intros Hmx Hx Hexact Hgran. unfold binary_round_aux.
  destruct (shr_fexp prec emax mx ex lx) as [mrs' e'] eqn:H1.
  pose proof (round_stage1 mx ex lx x mrs' e' Hmx Hx Hexact Hgran H1)
    as (Hm2 & He' & Hval).
  set (m2 := round_nearest_even (shr_m mrs') (loc_of_shr_record mrs')) in *.
  destruct (shr_fexp prec emax m2 e' loc_Exact) as [mrs'' e''] eqn:H2.
  pose proof (round_stage2 m2 e' mrs'' e'' Hm2 He' H2) as (Hnn & Hzero & Hsame).
  destruct (shr_m mrs'') as [| p | p] eqn:Hp; [| | lia].
  - simpl. split; [reflexivity |].
    assert (m2 = 0) by tauto. subst m2. rewrite H in Hval. simpl in Hval. lra.
  - destruct (Z.leb e'' (emax - prec)) eqn:Hle.
    + simpl. split; [reflexivity |]. rewrite Hsame. exact Hval.
    + unfold approx. apply Z.leb_gt in Hle. unfold emax, prec in Hle.
      assert (Hp1 : (1 <= IZR (Zpos p))%R) by (apply IZR_le; lia).
      pose proof (bpow_le 972 e'' ltac:(lia)). pose proof (bpow_pos 972).
      rewrite <- Hsame in Hval. nra.
Qed.

Lemma val_zero : val zero = 0%R.
Proof. reflexivity. Qed.

Lemma val_posfin (f : float) : posfin f -> (0 < val f)%R.
Proof.
  intros (m & e & H). unfold val. rewrite H. simpl.
  pose proof (bpow_pos e). assert (1 <= IZR (Zpos m))%R by (apply IZR_le; lia). nra.
Qed.

Lemma bpow_m52_le : (bpow (-52) <= 1)%R.
Proof. replace 1%R with (bpow 0) by reflexivity. apply bpow_le. lia. Qed.

Lemma bpow_m1074_le : (bpow (-1074) <= bpow (-52))%R.
Proof. apply bpow_le. lia. Qed.

(** From a rounded result of a nonnegative value below the overflow
    threshold back to floats. *)
Lemma approx_float (f : float) (x : R) :
  (0 <= x <= bpow 970)%R ->
  approx (Prim2SF f) false x ->
  nonneg f /\ (x - err x <= val f <= x + err x)%R.
Proof.
  intros Hx Happ. unfold val.
  pose proof (err_nonneg x (proj1 Hx)) as Herr.
  destruct (Prim2SF f) as [s | s | | s m e] eqn:Hf; simpl in Happ.
  - destruct Happ as [-> Hsmall]. split.
    + left. apply Prim2SF_inj. rewrite Hf. reflexivity.
    + simpl. lra.
  - exfalso. pose proof bpow_m52_le. pose proof bpow_m1074_le.
    assert (H972 : bpow 972 = (4 * bpow 970)%R).
    { replace 972 with (2 + 970) by lia. rewrite bpow_add.
      replace (bpow 2) with 4%R by (unfold bpow; simpl; lra). reflexivity. }
    assert (H970 : (1 <= bpow 970)%R) by (apply bpow_ge_1; lia).
    unfold err in *. nra.
  - contradiction.
  - destruct Happ as [-> Hb]. split.
    + right. exists m, e. exact Hf.
    + simpl. exact Hb.
Qed.

(** Multiplication of positive floats. *)
Lemma mul_approx (a b : float) :
  posfin a -> posfin b -> (val a * val b <= bpow 970)%R ->
  nonneg (a * b)%float /\
  (val a * val b - err (val a * val b) <= val (a * b)%float
   <= val a * val b + err (val a * val b))%R.
Proof.
  intros Ha Hb Hle.
  pose proof (val_posfin a Ha) as Hpa. pose proof (val_posfin b Hb) as Hpb.
  destruct Ha as (ma & ea & Ha). destruct Hb as (mb & eb & Hb).
  apply approx_float; [nra |].
  rewrite FloatAxioms.mul_spec. unfold val in *. rewrite Ha, Hb in *.
  unfold SF64mul, SFmul. simpl xorb. simpl SF2R in *.
  assert (Hx : (IZR (Zpos ma) * bpow ea * (IZR (Zpos mb) * bpow eb)
                = IZR (Zpos (ma * mb)) * bpow (ea + eb))%R).
  { rewrite Pos2Z.inj_mul, mult_IZR, bpow_add. ring. }
  rewrite Hx.
  apply binary_round_aux_approx.
  - lia.
  - pose proof (bpow_pos (ea + eb)). nra.
  - reflexivity.
  - left. reflexivity.
Qed.

(** Division: the integer quotient located by [SFdiv_core_binary]. *)
Lemma new_location_exact (nb_steps k : Z) :
  new_location nb_steps k = loc_Exact -> k = 0.
Proof.
  unfold new_location, new_location_even, new_location_odd.
  destruct (Z.even nb_steps); destruct (Z.eqb k 0) eqn:Hk;
    try discriminate; intros _; now apply Z.eqb_eq.
Qed.

Lemma div_core_spec (m1 m2 : positive) (e1 e2 mz ez : Z) (lz : location) :
  SFdiv_core_binary prec emax (Zpos m1) e1 (Zpos m2) e2 = (mz, ez, lz) ->
  let x := (IZR (Zpos m1) * bpow e1 / (IZR (Zpos m2) * bpow e2))%R in
  0 <= mz /\
  (IZR mz * bpow ez <= x < (IZR mz + 1) * bpow ez)%R /\
  (lz = loc_Exact -> x = (IZR mz * bpow ez)%R) /\
  (bpow ez <= err x)%R.
Proof.
  unfold SFdiv_core_binary. cbv zeta.
  set (d1 := Zdigits2 (Zpos m1)). set (d2 := Zdigits2 (Zpos m2)).
  set (D := d1 + e1 - (d2 + e2)).
  set (e' := Z.min (fexp prec emax D) (e1 - e2)).
  set (s := e1 - e2 - e').
  assert (Hs : 0 <= s) by (unfold s, e'; lia).
  set (m' := match s with Zpos _ => Z.shiftl (Zpos m1) s | Z0 => Zpos m1 | Zneg _ => 0 end).
  assert (Hm' : m' = Zpos m1 * 2 ^ s).
  { unfold m'. destruct s as [| p | p] eqn:Hsp.
    - simpl. lia.
    - rewrite Z.shiftl_mul_pow2 by lia. reflexivity.
    - lia. }
  pose proof (Z_div_mod m' (Zpos m2) ltac:(lia)) as Hdm.
  destruct (Z.div_eucl m' (Zpos m2)) as [q r]. destruct Hdm as [Hdm Hr].
  intros H. injection H as <- <- <-.
  set (x := (IZR (Zpos m1) * bpow e1 / (IZR (Zpos m2) * bpow e2))%R).
  assert (H2s : 0 < 2 ^ s) by (apply Z.pow_pos_nonneg; lia).
  assert (Hq : 0 <= q) by nia.
  (* the real quotient *)
  set (M1 := IZR (Zpos m1)) in *. set (M2 := IZR (Zpos m2)) in *.
  assert (HM1 : (1 <= M1)%R) by (apply IZR_le; lia).
  assert (HM2 : (1 <= M2)%R) by (apply IZR_le; lia).
  pose proof (bpow_pos e1) as He1. pose proof (bpow_pos e2) as He2.
  pose proof (bpow_pos e') as He'. pose proof (bpow_pos s) as Hbs.
  assert (Hsplit : bpow e1 = (bpow s * bpow e' * bpow e2)%R).
  { rewrite <- !bpow_add. f_equal. unfold s. lia. }
  assert (HIm' : (M1 * bpow s = M2 * IZR q + IZR r)%R).
  { unfold M1, M2. rewrite bpow_IZR by exact Hs.
    rewrite <- !mult_IZR, <- plus_IZR. f_equal. lia. }
  assert (Hx : (x * M2 = (M2 * IZR q + IZR r) * bpow e')%R).
  { unfold x. rewrite Hsplit, <- HIm'. field. lra. }
  assert (Hr0 : (0 <= IZR r)%R) by (apply IZR_le; lia).
  assert (Hr1 : (IZR r + 1 <= M2)%R).
  { unfold M2. replace 1%R with (IZR 1) by reflexivity. rewrite <- plus_IZR.
    apply IZR_le. lia. }
  assert (Hxlo : (IZR q * bpow e' <= x)%R).
  { apply (Rmult_le_reg_r M2); [lra |]. rewrite Hx. nra. }
  assert (Hxhi : (x < (IZR q + 1) * bpow e')%R).
  { apply (Rmult_lt_reg_r M2); [lra |]. rewrite Hx. nra. }
  split; [exact Hq | split; [split; assumption | split]].
  - intros Hexact. apply new_location_exact in Hexact. subst r.
    apply (Rmult_eq_reg_r M2); [| lra]. rewrite Hx. simpl. ring.
  - (* the exponent of the quotient is fine enough *)
    assert (HxD : (bpow (D - 1) <= x)%R).
    { assert (Hd1 : 2 ^ (d1 - 1) <= Zpos m1) by exact (proj1 (digits_bounds m1)).
      assert (Hd2 : Zpos m2 < 2 ^ d2) by exact (proj2 (digits_bounds m2)).
      assert (Hd1p : 1 <= d1) by (unfold d1; simpl; lia).
      assert (Hd2p : 1 <= d2) by (unfold d2; simpl; lia).
      assert (Hb1 : (bpow (d1 - 1) <= M1)%R).
      { rewrite bpow_IZR by lia. apply IZR_le. exact Hd1. }
      assert (Hb2 : (M2 <= bpow d2)%R).
      { rewrite bpow_IZR by lia. apply IZR_le, Z.lt_le_incl. exact Hd2. }
      assert (HD : (bpow (D - 1) * bpow d2 * bpow e2 = bpow (d1 - 1) * bpow e1)%R).
      { rewrite <- !bpow_add. f_equal. unfold D. lia. }
      assert (Hxx : (x * (M2 * bpow e2) = M1 * bpow e1)%R).
      { unfold x. field. lra. }
      pose proof (bpow_pos (D - 1)). pose proof (bpow_pos d2).
      pose proof (bpow_pos (d1 - 1)).
      apply (Rmult_le_reg_r (M2 * bpow e2)); [nra |]. rewrite Hxx.
      apply Rle_trans with (bpow (d1 - 1) * bpow e1)%R; [| nra].
      rewrite <- HD.
      assert (Hpp : (0 < bpow (D - 1) * bpow e2)%R) by (apply Rmult_lt_0_compat; assumption).
      replace (bpow (D - 1) * (M2 * bpow e2))%R with (bpow (D - 1) * bpow e2 * M2)%R by ring.
      replace (bpow (D - 1) * bpow d2 * bpow e2)%R with (bpow (D - 1) * bpow e2 * bpow d2)%R by ring.
      apply Rmult_le_compat_l; lra. }
    assert (Hx0 : (0 <= x)%R) by (pose proof (bpow_pos (D - 1)); lra).
    unfold err. pose proof (bpow_pos (-52)). pose proof (bpow_pos (-1074)).
    assert (He'le : e' <= fexp prec emax D) by (unfold e'; lia).
    rewrite fexp_eq in He'le.
    destruct (Z_le_dec (D - 53) (-1074)) as [Hsub | Hnorm].
    + pose proof (bpow_le e' (-1074) ltac:(lia)). nra.
    + pose proof (bpow_le e' (-52 + (D - 1)) ltac:(lia)) as Hle.
      rewrite bpow_add in Hle. nra.
Qed.

Lemma div_approx (a b : float) :
  posfin a -> posfin b -> (val a / val b <= bpow 970)%R ->
  nonneg (a / b)%float /\
  (val a / val b - err (val a / val b) <= val (a / b)%float
   <= val a / val b + err (val a / val b))%R.
Proof.
  intros Ha Hb Hle.
  pose proof (val_posfin a Ha) as Hpa. pose proof (val_posfin b Hb) as Hpb.
  destruct Ha as (ma & ea & Ha). destruct Hb as (mb & eb & Hb).
  assert (Hpos : (0 < val a / val b)%R) by (apply Rdiv_lt_0_compat; assumption).
  apply approx_float; [lra |].
  rewrite FloatAxioms.div_spec. unfold val in *. rewrite Ha, Hb in *.
  unfold SF64div, SFdiv. simpl xorb. simpl SF2R in *.
  destruct (SFdiv_core_binary prec emax (Zpos ma) ea (Zpos mb) eb)
    as [[mz ez] lz] eqn:Hcore.
  destruct (div_core_spec ma mb ea eb mz ez lz Hcore) as (Hmz & Hx & Hexact & Hgran).
  apply binary_round_aux_approx; auto.
Qed.

(** Canonical representations and the order of positive floats. *)
Lemma bounded_digits (m : positive) (e : Z) :
  SpecFloat.bounded prec emax m e = true ->
  Zpos (digits2_pos m) <= 53 /\ -1074 <= e /\
  (-1074 < e -> Zpos (digits2_pos m) = 53).
Proof.
  unfold SpecFloat.bounded, canonical_mantissa. intros H.
  apply andb_prop in H. destruct H as [H _]. apply Z.eqb_eq in H.
  rewrite fexp_eq in H. lia.
Qed.

Lemma mantissa_bounds (m : positive) (e : Z) :
  SpecFloat.bounded prec emax m e = true ->
  (IZR (Zpos m) < bpow 53)%R /\ (-1074 < e -> (bpow 52 <= IZR (Zpos m))%R).
Proof.
  intros H. destruct (bounded_digits m e H) as (Hd & He & Hn).
  pose proof (digits_bounds m) as [Hlo Hhi]. split.
  - rewrite bpow_IZR by lia. apply IZR_lt.
    eapply Z.lt_le_trans; [exact Hhi |]. apply Z.pow_le_mono_r; lia.
  - intros Hnorm. rewrite (Hn Hnorm) in Hlo.
    rewrite bpow_IZR by lia. apply IZR_le. exact Hlo.
Qed.

Lemma exponent_order (m1 m2 : positive) (e1 e2 : Z) :
  SpecFloat.bounded prec emax m1 e1 = true -> SpecFloat.bounded prec emax m2 e2 = true ->
  e1 < e2 ->
  (IZR (Zpos m1) * bpow e1 < IZR (Zpos m2) * bpow e2)%R.
Proof.
  intros H1 H2 Hlt.
  destruct (mantissa_bounds m1 e1 H1) as [Hhi _].
  destruct (bounded_digits m1 e1 H1) as (_ & He1 & _).
  destruct (mantissa_bounds m2 e2 H2) as [_ Hlo].
  specialize (Hlo ltac:(lia)).
  pose proof (bpow_pos e1). pose proof (bpow_pos e2).
  pose proof (bpow_le (53 + e1) (52 + e2) ltac:(lia)) as Hle.
  rewrite !bpow_add in Hle. nra.
Qed.

Lemma posfin_compare (m1 m2 : positive) (e1 e2 : Z) :
  SpecFloat.bounded prec emax m1 e1 = true -> SpecFloat.bounded prec emax m2 e2 = true ->
  match SFcompare (S754_finite false m1 e1) (S754_finite false m2 e2) with
  | Some Lt => (IZR (Zpos m1) * bpow e1 < IZR (Zpos m2) * bpow e2)%R
  | Some Eq => m1 = m2 /\ e1 = e2
  | Some Gt => (IZR (Zpos m2) * bpow e2 < IZR (Zpos m1) * bpow e1)%R
  | None => False
  end.
Proof.
  intros H1 H2. unfold SFcompare.
  destruct (Z.compare_spec e1 e2) as [He | He | He].
  - subst e2. change (Pos.compare_cont Eq m1 m2) with (Pos.compare m1 m2).
    pose proof (bpow_pos e1).
    destruct (Pos.compare_spec m1 m2) as [Hm | Hm | Hm].
    + now split.
    + assert (IZR (Zpos m1) < IZR (Zpos m2))%R by (apply IZR_lt; lia). nra.
    + assert (IZR (Zpos m2) < IZR (Zpos m1))%R by (apply IZR_lt; lia). nra.
  - now apply exponent_order.
  - now apply exponent_order.
Qed.

Lemma posfin_bounded (f : float) (m : positive) (e : Z) :
  Prim2SF f = S754_finite false m e -> SpecFloat.bounded prec emax m e = true.
Proof.
  intros H. pose proof (Prim2SF_valid f) as Hv. rewrite H in Hv. exact Hv.
Qed.

Lemma ltb_posfin (a b : float) :
  posfin a -> posfin b ->
  ((a <? b)%float = true <-> (val a < val b)%R).
Proof.
  intros (ma & ea & Ha) (mb & eb & Hb).
  rewrite FloatAxioms.ltb_spec. unfold val, SFltb. rewrite Ha, Hb.
  pose proof (posfin_compare ma mb ea eb (posfin_bounded a _ _ Ha)
                (posfin_bounded b _ _ Hb)) as Hc.
  simpl SF2R.
  destruct (SFcompare _ _) as [[| |] |]; try contradiction.
  - destruct Hc as [-> ->]. split; [discriminate | lra].
  - tauto.
  - split; [discriminate | lra].
Qed.

Lemma leb_posfin (a b : float) :
  posfin a -> posfin b ->
  ((a <=? b)%float = true <-> (val a <= val b)%R).
Proof.
  intros (ma & ea & Ha) (mb & eb & Hb).
  rewrite FloatAxioms.leb_spec. unfold val, SFleb. rewrite Ha, Hb.
  pose proof (posfin_compare ma mb ea eb (posfin_bounded a _ _ Ha)
                (posfin_bounded b _ _ Hb)) as Hc.
  simpl SF2R.
  destruct (SFcompare _ _) as [[| |] |]; try contradiction.
  - destruct Hc as [-> ->]. split; [lra | reflexivity].
  - split; [lra | reflexivity].
  - split; [discriminate | lra].
Qed.

Lemma posfin_not_nan (a : float) : posfin a -> is_nan a = false.
Proof.
  intros (m & e & Ha). unfold is_nan.
  rewrite FloatAxioms.eqb_spec, Ha. unfold SFeqb, SFcompare.
  rewrite Z.compare_refl. change (Pos.compare_cont Eq m m) with (Pos.compare m m).
  rewrite Pos.compare_refl. reflexivity.
Qed.

End Binary64Facts.

(** ** The letterbox numbers of an image of at least one pixel *)

Import Binary64 Binary64Facts.

Lemma bpow_m20 : (bpow (-20) <= / 1000000)%R.
Proof. unfold bpow. simpl. lra. Qed.

Lemma eps_small : (bpow (-52) <= / 1000000)%R.
Proof.
  pose proof (bpow_le (-52) (-20) ltac:(lia)). pose proof bpow_m20. lra.
Qed.

Lemma eta_small : (bpow (-1074) <= / 1000000)%R.
Proof. pose proof bpow_m1074_le. pose proof eps_small. lra. Qed.

Lemma bpow_10 : bpow 10 = 1024%R.
Proof. unfold bpow. simpl. lra. Qed.

Lemma Math_min_posfin (a b : float) :
  posfin a -> posfin b ->
  JS.Math_min a b = a /\ (val a <= val b)%R \/
  JS.Math_min a b = b /\ (val b <= val a)%R.
Proof.
  intros Ha Hb. unfold JS.Math_min.
  rewrite (posfin_not_nan a Ha), (posfin_not_nan b Hb). simpl orb. cbv iota.
  pose proof (ltb_posfin a b Ha Hb) as Hab.
  pose proof (ltb_posfin b a Hb Ha) as Hba.
  destruct (a <? b)%float.
  - left. split; [reflexivity |]. apply Rlt_le, Hab. reflexivity.
  - destruct (b <? a)%float.
    + right. split; [reflexivity |]. apply Rlt_le, Hba. reflexivity.
    + assert (Heq : val a = val b).
      { destruct (Rtotal_order (val a) (val b)) as [H | [H | H]].
        - apply Hab in H. discriminate.
        - exact H.
        - apply Hba in H. discriminate. }
      destruct (get_sign a); [left | right]; split; try reflexivity; lra.
Qed.

Lemma Math_round_small (p : float) :
  nonneg p -> (val p < bpow 52)%R ->
  exists r : Z,
    0 <= r /\ JS.Math_round p = JS.of_Z r /\
    (IZR r <= val p + / 2 < IZR r + 1)%R.
Proof.
  intros [-> | (m & e & Hp)] Hlt.
  - exists 0. split; [lia | split; [reflexivity |]]. rewrite val_zero. simpl. lra.
  - pose proof (posfin_bounded p m e Hp) as Hb.
    unfold val in Hlt. rewrite Hp in Hlt. simpl SF2R in Hlt.
    unfold JS.Math_round, val. rewrite Hp. simpl SF2R.
    destruct (Z.leb_spec 0 e) as [He | He].
    + exfalso. destruct (mantissa_bounds m e Hb) as [_ Hlo].
      specialize (Hlo ltac:(lia)).
      pose proof (bpow_ge_1 e He). pose proof (bpow_pos 52). nra.
    + set (k := - e). set (N := 2 * Zpos m + 2 ^ k).
      assert (Hk : 0 < k) by (unfold k; lia).
      assert (H2k : 0 < 2 ^ k) by (apply Z.pow_pos_nonneg; lia).
      assert (Hpow : 2 ^ (k + 1) = 2 * 2 ^ k).
      { rewrite Z.pow_add_r by lia. change (2 ^ 1) with 2. ring. }
      set (r := N / 2 ^ (k + 1)).
      assert (Hr0 : 0 <= r) by (apply Z.div_pos; unfold N; lia).
      exists r. split; [exact Hr0 | split].
      * destruct (Z.eqb_spec r 0) as [-> | _]; reflexivity.
      * pose proof (Z.div_mod N (2 ^ (k + 1)) ltac:(lia)) as Hdm.
        pose proof (Z.mod_pos_bound N (2 ^ (k + 1)) ltac:(lia)) as Hrem.
        fold r in Hdm. set (rem := N mod 2 ^ (k + 1)) in *.
        rewrite Hpow in Hdm, Hrem.
        assert (HB : (bpow e * IZR (2 ^ k) = 1)%R).
        { rewrite <- bpow_IZR by lia. rewrite <- bpow_add.
          replace (e + k) with 0 by (unfold k; lia). reflexivity. }
        assert (HBpos : (0 < IZR (2 ^ k))%R) by (apply IZR_lt; exact H2k).
        assert (HN : (2 * IZR (Zpos m) + IZR (2 ^ k)
                      = 2 * IZR (2 ^ k) * IZR r + IZR rem)%R).
        { replace 2%R with (IZR 2) by reflexivity.
          rewrite <- !mult_IZR, <- !plus_IZR. f_equal. unfold N in Hdm. lia. }
        assert (Hrem0 : (0 <= IZR rem)%R) by (apply IZR_le; lia).
        assert (Hrem1 : (IZR rem < 2 * IZR (2 ^ k))%R).
        { replace 2%R with (IZR 2) by reflexivity. rewrite <- mult_IZR.
          apply IZR_lt. lia. }
        set (B := IZR (2 ^ k)) in *. set (M := IZR (Zpos m)) in *.
        set (E := bpow e) in *.
        assert (HV : (M * E * B = M)%R) by (rewrite Rmult_assoc, HB; ring).
        split.
        -- apply (Rmult_le_reg_r (2 * B)); [lra |]. nra.
        -- apply (Rmult_lt_reg_r (2 * B)); [lra |]. nra.
Qed.

Lemma bounded_exponent (m : positive) (e : Z) :
  SpecFloat.bounded prec emax m e = true -> e <= 971.
Proof.
  unfold SpecFloat.bounded. intros H. apply andb_prop in H.
  destruct H as [_ H]. apply Z.leb_le in H. exact H.
Qed.

Lemma val_one : val 1%float = 1%R.
Proof.
  unfold val. change (Prim2SF 1) with (S754_finite false 4503599627370496 (-52)).
  simpl SF2R. change 4503599627370496 with (2 ^ 52).
  rewrite <- bpow_IZR, <- bpow_add by lia. reflexivity.
Qed.

Lemma posfin_one : posfin 1%float.
Proof. exists 4503599627370496%positive, (-52). reflexivity. Qed.

Lemma posfin_targetSize : posfin targetSize.
Proof. exists 5629499534213120%positive, (-43). reflexivity. Qed.

Lemma val_targetSize : val targetSize = 640%R.
Proof.
  unfold val.
  change (Prim2SF targetSize) with (S754_finite false 5629499534213120 (-43)).
  simpl SF2R. change 5629499534213120 with (640 * 2 ^ 43).
  rewrite mult_IZR, <- bpow_IZR, Rmult_assoc, <- bpow_add by lia.
  change (bpow (43 + -43)) with 1%R. lra.
Qed.

Lemma dimension_of_integer (v : float) :
  JS.Number_isInteger v = true -> (1 <=? v)%float = true -> dimension v.
Proof.
  unfold JS.Number_isInteger. intros Hint Hle.
  assert (Hpos : posfin v).
  { rewrite FloatAxioms.leb_spec in Hle.
    change (Prim2SF 1) with (S754_finite false 4503599627370496 (-52)) in Hle.
    destruct (Prim2SF v) as [s | s | | s m e] eqn:Hv; try discriminate.
    destruct s; [discriminate |]. exists m, e. exact Hv. }
  split; [exact Hpos | split].
  - rewrite <- val_one. apply leb_posfin; [apply posfin_one | exact Hpos | exact Hle].
  - destruct Hpos as (m & e & Hv). unfold val. rewrite Hv. simpl SF2R.
    pose proof (posfin_bounded v m e Hv) as Hb.
    destruct (mantissa_bounds m e Hb) as [Hm _].
    pose proof (bounded_exponent m e Hb) as He.
    pose proof (bpow_le e 971 He). pose proof (bpow_pos e).
    replace 1024 with (53 + 971) by lia. rewrite bpow_add.
    assert (0 < IZR (Zpos m))%R by (apply IZR_lt; lia). nra.
Qed.

(** A dimension times the smallest positive float is negligible. *)
Lemma dimension_eta (U : R) :
  (U < bpow 1024 -> 0 < U -> U * bpow (-1074) <= / 1000000)%R.
Proof.
  intros Hu H0.
  assert (H : (bpow 1024 * bpow (-1074) = bpow (-50))%R)
    by (rewrite <- bpow_add; reflexivity).
  pose proof (bpow_le (-50) (-20) ltac:(lia)). pose proof bpow_m20.
  pose proof (bpow_pos (-1074)). nra.
Qed.

(** [targetSize / u] is a positive float close to the exact quotient. *)
Lemma scale_candidate (u : float) :
  dimension u ->
  posfin (targetSize / u)%float /\
  (640 - / 1000 <= val u * val (targetSize / u)%float <= 640 + / 1000)%R.
Proof.
  intros (Hu & Hlo & Hhi).
  pose proof (val_posfin u Hu) as HU.
  set (U := val u) in *. set (X := (640 / U)%R).
  assert (HX : (X * U = 640)%R) by (unfold X; field; lra).
  assert (HX0 : (0 < X <= 640)%R).
  { split; [apply Rdiv_lt_0_compat; lra |].
    apply (Rmult_le_reg_r U); [lra |]. rewrite HX. nra. }
  pose proof bpow_10 as H10.
  assert (H970 : (X <= bpow 970)%R).
  { pose proof (bpow_le 10 970 ltac:(lia)). lra. }
  pose proof (div_approx targetSize u posfin_targetSize Hu) as Hdiv.
  rewrite val_targetSize in Hdiv. fold U in Hdiv. fold X in Hdiv.
  destruct (Hdiv H970) as [Hnn Hval]. clear Hdiv.
  set (A := val (targetSize / u)%float) in *.
  pose proof eps_small as Heps. pose proof eta_small as Heta.
  pose proof (bpow_pos (-52)) as Heps0. pose proof (bpow_pos (-1074)) as Heta0.
  pose proof (dimension_eta U Hhi HU) as HUeta.
  unfold err in Hval.
  assert (HUA : (640 - / 1000 <= U * A <= 640 + / 1000)%R).
  { rewrite <- HX. split.
    - assert (U * (X - A) <= U * (bpow (-52) * X + bpow (-1074)))%R
        by (apply Rmult_le_compat_l; lra).
      nra.
    - assert (U * (A - X) <= U * (bpow (-52) * X + bpow (-1074)))%R
        by (apply Rmult_le_compat_l; lra).
      nra. }
  split; [| exact HUA].
  destruct Hnn as [Hz | Hp]; [| exact Hp].
  exfalso. unfold A in HUA. rewrite Hz, val_zero in HUA. lra.
Qed.

(** The product of a dimension [v] and a scale [s] that does not exceed
    [targetSize / v] rounds to a whole number of pixels from 0 to 640. *)
Lemma scaled_within (v s : float) :
  dimension v -> posfin s ->
  (val s <= val (targetSize / v)%float)%R ->
  exists k : Z, 0 <= k <= 640 /\ JS.Math_round (v * s)%float = JS.of_Z k.
Proof.
  intros Hv Hs Hle.
  destruct (scale_candidate v Hv) as [Hb HVB].
  destruct Hv as (Hv & Hlo & Hhi).
  pose proof (val_posfin s Hs) as HS.
  set (V := val v) in *. set (S := val s) in *.
  set (B := val (targetSize / v)%float) in *.
  assert (HVS : (0 < V * S <= 640 + / 1000)%R).
  { split; [nra |].
    assert (V * S <= V * B)%R by (apply Rmult_le_compat_l; lra). lra. }
  pose proof bpow_10 as H10.
  pose proof (bpow_le 10 970 ltac:(lia)) as H970.
  pose proof (bpow_le 10 52 ltac:(lia)) as H52.
  destruct (mul_approx v s Hv Hs ltac:(fold V S; lra)) as [Hnn Hval].
  fold V S in Hval. unfold err in Hval.
  pose proof eps_small as Heps. pose proof eta_small as Heta.
  pose proof (bpow_pos (-52)) as Heps0.
  set (Q := val (v * s)%float) in *.
  assert (HQ : (Q <= 640 + / 100)%R) by nra.
  destruct (Math_round_small (v * s)%float Hnn ltac:(fold Q; lra))
    as (r & Hr0 & Hround & Hr).
  fold Q in Hr. exists r. split; [| exact Hround].
  split; [exact Hr0 |].
  assert (Hlt : (IZR r < IZR 641)%R) by (simpl; lra).
  apply lt_IZR in Hlt. lia.
Qed.

(** The dimension that decides the scale is scaled to exactly 640. *)
Lemma scaled_dominant (u : float) :
  dimension u ->
  JS.Math_round (u * (targetSize / u))%float = targetSize.
Proof.
  intros Hu.
  destruct (scale_candidate u Hu) as [Ha HUA].
  destruct Hu as (Hu & Hlo & Hhi).
  set (U := val u) in *. set (A := val (targetSize / u)%float) in *.
  pose proof bpow_10 as H10.
  pose proof (bpow_le 10 970 ltac:(lia)) as H970.
  pose proof (bpow_le 10 52 ltac:(lia)) as H52.
  destruct (mul_approx u (targetSize / u)%float Hu Ha ltac:(fold U A; lra))
    as [Hnn Hval].
  fold U A in Hval. unfold err in Hval.
  pose proof eps_small as Heps. pose proof eta_small as Heta.
  pose proof (bpow_pos (-52)) as Heps0. pose proof (bpow_pos (-1074)) as Heta0.
  set (P := val (u * (targetSize / u))%float) in *.
  assert (HP : (640 - / 100 <= P <= 640 + / 100)%R) by nra.
  destruct (Math_round_small (u * (targetSize / u))%float Hnn ltac:(fold P; lra))
    as (r & Hr0 & Hround & Hr).
  fold P in Hr. rewrite Hround.
  assert (Hlt : (IZR r < IZR 641)%R) by (simpl; lra).
  assert (Hgt : (IZR 639 < IZR r)%R) by (simpl; lra).
  apply lt_IZR in Hlt. apply lt_IZR in Hgt.
  replace r with 640 by lia. reflexivity.
Qed.

Lemma axisFits_all : forallb (fun n => axisFits (JS.of_Z (Z.of_nat n))) (seq 0 641) = true.
Proof. vm_compute. reflexivity. Qed.

Lemma axisFits_pixels (k : Z) : 0 <= k <= 640 -> axisFits (JS.of_Z k) = true.
Proof.
  intros Hk. pose proof axisFits_all as Hall.
  rewrite forallb_forall in Hall.
  specialize (Hall (Z.to_nat k)). rewrite Z2Nat.id in Hall by lia.
  apply Hall, in_seq. lia.
Qed.

Lemma axisFits_elim (v : float) :
  axisFits v = true ->
  (v <=? targetSize)%float = true /\
  (JS.Math_round ((targetSize - v) / 2)
   + (targetSize - v - JS.Math_round ((targetSize - v) / 2)))%float
  = (targetSize - v)%float.
Proof.
  unfold axisFits. intros H. apply andb_prop in H. destruct H as [Hle Heq].
  split; [exact Hle | apply FloatAxioms.Leibniz.eqb_spec, Heq].
Qed.

Lemma posfin_positive (s : float) : posfin s -> (0 <? s)%float = true.
Proof.
  intros (m & e & Hs). rewrite FloatAxioms.ltb_spec, Hs. reflexivity.
Qed.

(** Both scaled sizes are whole numbers of pixels from 0 to 640, and the
    scale is positive. *)
Lemma letterbox_pixels (w h : float) :
  dimension w -> dimension h ->
  posfin (lb_scale (letterbox w h)) /\
  (exists k, 0 <= k <= 640 /\ scaledWidth (letterbox w h) = JS.of_Z k) /\
  (exists k, 0 <= k <= 640 /\ scaledHeight (letterbox w h) = JS.of_Z k).
Proof.
  intros Hw Hh.
  destruct (scale_candidate w Hw) as [Ha _].
  destruct (scale_candidate h Hh) as [Hb _].
  unfold letterbox. cbv zeta. cbn [lb_scale scaledWidth scaledHeight].
  destruct (Math_min_posfin _ _ Ha Hb) as [[-> Hle] | [-> Hle]].
  - split; [exact Ha | split].
    + exists 640. split; [lia |]. apply scaled_dominant, Hw.
    + apply scaled_within; assumption.
  - split; [exact Hb | split].
    + apply scaled_within; assumption.
    + exists 640. split; [lia |]. apply scaled_dominant, Hh.
Qed.

(** C4. For an image whose width and height are positive integers, the
    numbers of [preprocessImage] for the target size 640 satisfy:
    the scaled width and the scaled height are at most [targetSize], top
    and bottom padding add up to [targetSize - scaledHeight] and left and
    right padding to [targetSize - scaledWidth], exactly, and the scale is
    positive; the 1 x 1 image, with scale 640, is one instance.  The
    arithmetic is that of binary64, rounding included. *)
Theorem letterbox_fits (w h : float) :
  JS.Number_isInteger w = true -> (1 <=? w)%float = true ->
  JS.Number_isInteger h = true -> (1 <=? h)%float = true ->
  let lb := letterbox w h in
  (scaledWidth lb <=? targetSize)%float = true /\
  (scaledHeight lb <=? targetSize)%float = true /\
  (Sharp.top (extend lb) + Sharp.bottom (extend lb))%float
    = (targetSize - scaledHeight lb)%float /\
  (Sharp.left (extend lb) + Sharp.right (extend lb))%float
    = (targetSize - scaledWidth lb)%float /\
  (0 <? lb_scale lb)%float = true /\
  lb_scale (letterbox 1 1) = 640%float.
Proof.
  intros Hwi Hw1 Hhi Hh1 lb.
  pose proof (dimension_of_integer w Hwi Hw1) as Hw.
  pose proof (dimension_of_integer h Hhi Hh1) as Hh.
  destruct (letterbox_pixels w h Hw Hh)
    as (Hs & (kw & Hkw & Hsw) & (kh & Hkh & Hsh)).
  fold lb in Hs, Hsw, Hsh.
  destruct (axisFits_elim _ (axisFits_pixels kw Hkw)) as [Hwle Hwpad].
  destruct (axisFits_elim _ (axisFits_pixels kh Hkh)) as [Hhle Hhpad].
  rewrite <- Hsw in Hwle, Hwpad. rewrite <- Hsh in Hhle, Hhpad.
  repeat split.
  - exact Hwle.
  - exact Hhle.
  - exact Hhpad.
  - exact Hwpad.
  - apply posfin_positive, Hs.
Qed.

Lemma letterbox_fits_witness :
  let lb := letterbox 1280 720 in
  (scaledWidth lb <=? targetSize)%float = true /\
  (scaledHeight lb <=? targetSize)%float = true /\
  (Sharp.top (extend lb) + Sharp.bottom (extend lb))%float
    = (targetSize - scaledHeight lb)%float /\
  (Sharp.left (extend lb) + Sharp.right (extend lb))%float
    = (targetSize - scaledWidth lb)%float /\
  (0 <? lb_scale lb)%float = true /\
  lb_scale (letterbox 1 1) = 640%float.
Proof.
  apply (letterbox_fits 1280 720); reflexivity.
Defined.

(** ** The normalised buffer *)

Lemma pixelChecks_all (b : Byte.byte) : pixelChecks b = true.
Proof. destruct b; vm_compute; reflexivity. Qed.

Lemma pixel_spec (b : Byte.byte) :
  (0 <=? pixel b)%float = true /\ (pixel b <=? 1)%float = true /\
  fround (pixel b) = pixel b /\
  JS.Math_round (pixel b * 255)%float = JS.of_Z (Z.of_N (Byte.to_N b)).
Proof.
  pose proof (pixelChecks_all b) as H. unfold pixelChecks in H.
  repeat (apply andb_prop in H; destruct H as [H ?]).
  repeat split; try assumption; now apply FloatAxioms.Leibniz.eqb_spec.
Qed.

(** What [preprocessImage] returns on success, in terms of the calls it
    made. *)
Lemma preprocessImage_ok (sharp : Sharp.Library) (imagePath : string)
    (pre : Preprocessed) :
  preprocessImage sharp imagePath = Ok pre ->
  exists (metadata : Sharp.Metadata) (rawBuffer : list Byte.byte),
    Sharp.metadata sharp imagePath = Ok metadata /\
    (let lb := letterbox (Sharp.width metadata) (Sharp.height metadata) in
     Sharp.letterboxed sharp imagePath (scaledWidth lb) (scaledHeight lb)
       (extend lb) = Ok rawBuffer /\
     scale pre = lb_scale lb) /\
    buffer pre = map pixel rawBuffer /\
    originalWidth pre = Sharp.width metadata /\
    originalHeight pre = Sharp.height metadata.
Proof.
  unfold preprocessImage.
  destruct (Sharp.metadata sharp imagePath) as [metadata | msg]; [| discriminate].
  cbn [bind]. cbv zeta.
  destruct (Sharp.letterboxed sharp imagePath _ _ _) as [rawBuffer | msg] eqn:Hraw;
    [| discriminate].
  cbn [bind]. intros H. injection H as <-.
  exists metadata, rawBuffer. repeat split; try reflexivity. exact Hraw.
Qed.

(** X1. The buffer returned by [preprocessImage] has one value per byte of
    the letterboxed canvas, and every value lies between 0 and 1. *)
Theorem buffer_is_normalized (sharp : Sharp.Library) (imagePath : string)
    (pre : Preprocessed) :
  preprocessImage sharp imagePath = Ok pre ->
  exists rawBuffer : list Byte.byte,
    (let lb := letterbox (originalWidth pre) (originalHeight pre) in
     Sharp.letterboxed sharp imagePath (scaledWidth lb) (scaledHeight lb)
       (extend lb) = Ok rawBuffer) /\
    length (buffer pre) = length rawBuffer /\
    Forall (fun v => (0 <=? v)%float = true /\ (v <=? 1)%float = true)
      (buffer pre).
Proof.
  intros Hpre.
  destruct (preprocessImage_ok sharp imagePath pre Hpre)
    as (metadata & rawBuffer & Hmeta & [Hraw _] & Hbuf & Hw & Hh).
  exists rawBuffer. rewrite Hw, Hh, Hbuf. split; [exact Hraw | split].
  - apply length_map.
  - apply Forall_map, Forall_forall. intros b _.
    destruct (pixel_spec b) as (H0 & H1 & _). now split.
Qed.

Lemma buffer_is_normalized_witness :
  exists rawBuffer : list Byte.byte,
    (let lb := letterbox 1280 720 in
     Sharp.letterboxed (fakeSharp 1280 720 [Byte.x00; Byte.xff; Byte.x33])
       "uploads/road.jpg" (scaledWidth lb) (scaledHeight lb) (extend lb)
     = Ok rawBuffer) /\
    length [0; 1; 0.20000000298023224]%float = length rawBuffer /\
    Forall (fun v => (0 <=? v)%float = true /\ (v <=? 1)%float = true)
      [0; 1; 0.20000000298023224]%float.
Proof.
  exact (buffer_is_normalized
           (fakeSharp 1280 720 [Byte.x00; Byte.xff; Byte.x33]) "uploads/road.jpg"
           {| buffer := [0; 1; 0.20000000298023224]%float;
              originalWidth := 1280; originalHeight := 720; scale := 0.5 |}
           eq_refl).
Defined.

(** X2. The normalisation loses nothing: scaling a buffer value by 255
    and rounding gives the byte back, and the copy into a new
    [Float32Array] made by the handler leaves every value as it is. *)
Theorem buffer_is_lossless (sharp : Sharp.Library) (imagePath : string)
    (pre : Preprocessed) :
  preprocessImage sharp imagePath = Ok pre ->
  exists rawBuffer : list Byte.byte,
    (let lb := letterbox (originalWidth pre) (originalHeight pre) in
     Sharp.letterboxed sharp imagePath (scaledWidth lb) (scaledHeight lb)
       (extend lb) = Ok rawBuffer) /\
    map (fun v => JS.Math_round (v * 255)%float) (buffer pre) =
      map (fun b => JS.of_Z (Z.of_N (Byte.to_N b))) rawBuffer /\
    Float32Array (buffer pre) = buffer pre.
Proof.
  intros Hpre.
  destruct (preprocessImage_ok sharp imagePath pre Hpre)
    as (metadata & rawBuffer & Hmeta & [Hraw _] & Hbuf & Hw & Hh).
  exists rawBuffer. rewrite Hw, Hh, Hbuf. split; [exact Hraw | split].
  - rewrite map_map. apply map_ext. intros b. apply pixel_spec.
  - unfold Float32Array. rewrite map_map.
    apply map_ext. intros b. apply pixel_spec.
Qed.

Lemma buffer_is_lossless_witness :
  exists rawBuffer : list Byte.byte,
    (let lb := letterbox 1280 720 in
     Sharp.letterboxed (fakeSharp 1280 720 [Byte.x00; Byte.xff; Byte.x33])
       "uploads/road.jpg" (scaledWidth lb) (scaledHeight lb) (extend lb)
     = Ok rawBuffer) /\
    map (fun v => JS.Math_round (v * 255)%float)
      [0; 1; 0.20000000298023224]%float =
      map (fun b => JS.of_Z (Z.of_N (Byte.to_N b))) rawBuffer /\
    Float32Array [0; 1; 0.20000000298023224]%float =
      [0; 1; 0.20000000298023224]%float.
Proof.
  exact (buffer_is_lossless
           (fakeSharp 1280 720 [Byte.x00; Byte.xff; Byte.x33]) "uploads/road.jpg"
           {| buffer := [0; 1; 0.20000000298023224]%float;
              originalWidth := 1280; originalHeight := 720; scale := 0.5 |}
           eq_refl).
Defined.

(** ** The padding and the aspect ratio *)

Lemma paddingFits_all :
  forallb (fun n => paddingFits (Z.of_nat n)) (seq 0 641) = true.
Proof. vm_compute. reflexivity. Qed.

Lemma paddingFits_pixels (k : Z) :
  0 <= k <= 640 ->
  (JS.Math_round ((targetSize - JS.of_Z k) / 2))%float = JS.of_Z ((641 - k) / 2) /\
  (targetSize - JS.of_Z k
   - JS.Math_round ((targetSize - JS.of_Z k) / 2))%float = JS.of_Z ((640 - k) / 2).
Proof.
  intros Hk. pose proof paddingFits_all as Hall.
  rewrite forallb_forall in Hall.
  specialize (Hall (Z.to_nat k)). rewrite Z2Nat.id in Hall by lia.
  assert (Hin : In (Z.to_nat k) (seq 0 641)) by (apply in_seq; lia).
  specialize (Hall Hin). unfold paddingFits in Hall. cbv zeta in Hall.
  apply andb_prop in Hall. destruct Hall as [H1 H2].
  split; now apply FloatAxioms.Leibniz.eqb_spec.
Qed.

(** X3. For an image whose width and height are positive integers one
    axis fills the canvas: the scaled width or the scaled height is
    exactly [targetSize], and the padding on that axis is 0 on both
    sides; for a square image this holds on both axes. *)
Theorem letterbox_fills_one_axis (w h : float) :
  JS.Number_isInteger w = true -> (1 <=? w)%float = true ->
  JS.Number_isInteger h = true -> (1 <=? h)%float = true ->
  let lb := letterbox w h in
  (scaledWidth lb = targetSize /\
   Sharp.left (extend lb) = 0%float /\ Sharp.right (extend lb) = 0%float
   \/
   scaledHeight lb = targetSize /\
   Sharp.top (extend lb) = 0%float /\ Sharp.bottom (extend lb) = 0%float) /\
  (w = h -> scaledWidth lb = targetSize /\ scaledHeight lb = targetSize).
Proof.
  intros Hwi Hw1 Hhi Hh1.
  pose proof (dimension_of_integer w Hwi Hw1) as Hw.
  pose proof (dimension_of_integer h Hhi Hh1) as Hh.
  destruct (scale_candidate w Hw) as [Ha _].
  destruct (scale_candidate h Hh) as [Hb _].
  unfold letterbox. cbv zeta.
  cbn [scaledWidth scaledHeight extend Sharp.top Sharp.bottom Sharp.left Sharp.right].
  split.
  - destruct (Math_min_posfin _ _ Ha Hb) as [[-> _] | [-> _]].
    + left. rewrite (scaled_dominant w Hw). repeat split; reflexivity.
    + right. rewrite (scaled_dominant h Hh). repeat split; reflexivity.
  - intros <-.
    destruct (Math_min_posfin _ _ Ha Ha) as [[-> _] | [-> _]];
      rewrite (scaled_dominant w Hw); split; reflexivity.
Qed.

Lemma letterbox_fills_one_axis_witness :
  let lb := letterbox 100 200 in
  (scaledWidth lb = targetSize /\
   Sharp.left (extend lb) = 0%float /\ Sharp.right (extend lb) = 0%float
   \/
   scaledHeight lb = targetSize /\
   Sharp.top (extend lb) = 0%float /\ Sharp.bottom (extend lb) = 0%float) /\
  (100%float = 200%float ->
   scaledWidth lb = targetSize /\ scaledHeight lb = targetSize).
Proof.
  apply (letterbox_fills_one_axis 100 200); reflexivity.
Defined.

(** X4. For such an image the four paddings are whole numbers of pixels:
    with [k] the scaled size of an axis, the padding before it (top, left)
    is [ceil ((640 - k) / 2)] and the padding after it (bottom, right) is
    [floor ((640 - k) / 2)]; the two add up to [640 - k], differ by at
    most one pixel, and an odd remainder goes to the top or to the
    left. *)
Theorem letterbox_padding_is_balanced (w h : float) :
  JS.Number_isInteger w = true -> (1 <=? w)%float = true ->
  JS.Number_isInteger h = true -> (1 <=? h)%float = true ->
  let lb := letterbox w h in
  exists kw kh left right top bottom : Z,
    (0 <= kw <= 640 /\ 0 <= kh <= 640) /\
    (scaledWidth lb = JS.of_Z kw /\ scaledHeight lb = JS.of_Z kh) /\
    (Sharp.left (extend lb) = JS.of_Z left /\
     Sharp.right (extend lb) = JS.of_Z right /\
     Sharp.top (extend lb) = JS.of_Z top /\
     Sharp.bottom (extend lb) = JS.of_Z bottom) /\
    (left + right = 640 - kw /\ 0 <= right <= left /\ left <= right + 1) /\
    (top + bottom = 640 - kh /\ 0 <= bottom <= top /\ top <= bottom + 1).
Proof.
  intros Hwi Hw1 Hhi Hh1 lb.
  pose proof (dimension_of_integer w Hwi Hw1) as Hw.
  pose proof (dimension_of_integer h Hhi Hh1) as Hh.
  destruct (letterbox_pixels w h Hw Hh)
    as (_ & (kw & Hkw & Hsw) & (kh & Hkh & Hsh)).
  fold lb in Hsw, Hsh.
  exists kw, kh, ((641 - kw) / 2), ((640 - kw) / 2),
    ((641 - kh) / 2), ((640 - kh) / 2).
  destruct (paddingFits_pixels kw Hkw) as [Hl Hr].
  destruct (paddingFits_pixels kh Hkh) as [Ht Hb].
  rewrite <- Hsw in Hl, Hr. rewrite <- Hsh in Ht, Hb.
  assert (Hhalves : forall k, 0 <= k <= 640 ->
            (641 - k) / 2 + (640 - k) / 2 = 640 - k /\
            0 <= (640 - k) / 2 <= (641 - k) / 2 /\
            (641 - k) / 2 <= (640 - k) / 2 + 1).
  { intros k Hk.
    pose proof (Z.div_mod (640 - k) 2 ltac:(lia)).
    pose proof (Z.div_mod (641 - k) 2 ltac:(lia)).
    pose proof (Z.mod_pos_bound (640 - k) 2 ltac:(lia)).
    pose proof (Z.mod_pos_bound (641 - k) 2 ltac:(lia)). lia. }
  split; [split; assumption |].
  split; [split; assumption |].
  split; [repeat split; assumption |].
  split; apply Hhalves; assumption.
Qed.

Lemma letterbox_padding_is_balanced_witness :
  let lb := letterbox 641 3 in
  exists kw kh left right top bottom : Z,
    (0 <= kw <= 640 /\ 0 <= kh <= 640) /\
    (scaledWidth lb = JS.of_Z kw /\ scaledHeight lb = JS.of_Z kh) /\
    (Sharp.left (extend lb) = JS.of_Z left /\
     Sharp.right (extend lb) = JS.of_Z right /\
     Sharp.top (extend lb) = JS.of_Z top /\
     Sharp.bottom (extend lb) = JS.of_Z bottom) /\
    (left + right = 640 - kw /\ 0 <= right <= left /\ left <= right + 1) /\
    (top + bottom = 640 - kh /\ 0 <= bottom <= top /\ top <= bottom + 1).
Proof.
  apply (letterbox_padding_is_balanced 641 3); reflexivity.
Defined.

(** The side that does not decide the scale: its scaled size is the whole
    number nearest to its exact share of the canvas, up to the rounding
    of the arithmetic. *)
Lemma scaled_value (u v : float) :
  dimension u -> dimension v ->
  (val (targetSize / u)%float <= val (targetSize / v)%float)%R ->
  exists k : Z,
    0 <= k <= 640 /\
    JS.Math_round (v * (targetSize / u))%float = JS.of_Z k /\
    (- (/ 2 + / 50) <= IZR k - 640 * val v / val u <= / 2 + / 50)%R.
Proof.
  intros Hu Hv Hle.
  destruct (scale_candidate u Hu) as [Ha HUA].
  destruct (scale_candidate v Hv) as [Hb HVB].
  destruct Hu as (Hu & Hulo & Huhi). destruct Hv as (Hv & Hvlo & Hvhi).
  pose proof (val_posfin _ Ha) as HA.
  set (U := val u) in *. set (V := val v) in *.
  set (A := val (targetSize / u)%float) in *.
  set (B := val (targetSize / v)%float) in *.
  set (r := (V / U)%R).
  assert (HrU : (r * U = V)%R) by (unfold r; field; lra).
  assert (Hr0 : (0 < r)%R) by (apply Rdiv_lt_0_compat; lra).
  assert (HVA : (V * A = r * (U * A))%R) by (rewrite <- HrU; ring).
  assert (HVAle : (V * A <= 640 + / 1000)%R).
  { assert (V * A <= V * B)%R by (apply Rmult_le_compat_l; lra). lra. }
  assert (Hr1 : (r * 639 <= 641)%R).
  { assert (r * 639 <= r * (U * A))%R by (apply Rmult_le_compat_l; lra). lra. }
  assert (Hexact : (- / 100 <= V * A - 640 * r <= / 100)%R) by (rewrite HVA; nra).
  pose proof bpow_10 as H10.
  pose proof (bpow_le 10 970 ltac:(lia)) as H970.
  pose proof (bpow_le 10 52 ltac:(lia)) as H52.
  destruct (mul_approx v (targetSize / u)%float Hv Ha ltac:(fold V A; lra))
    as [Hnn Hval].
  fold V A in Hval. unfold err in Hval.
  pose proof eps_small as Heps. pose proof eta_small as Heta.
  pose proof (bpow_pos (-52)) as Heps0. pose proof (bpow_pos (-1074)) as Heta0.
  set (Q := val (v * (targetSize / u))%float) in *.
  assert (HVA0 : (0 < V * A)%R) by nra.
  assert (HQ : (V * A - / 1000 <= Q <= V * A + / 1000)%R) by nra.
  assert (HQhi : (Q <= 640 + / 100)%R) by nra.
  assert (HQr : (- / 50 <= Q - 640 * r <= / 50)%R) by nra.
  destruct (Math_round_small (v * (targetSize / u))%float Hnn ltac:(fold Q; lra))
    as (k & Hk0 & Hround & Hk).
  fold Q in Hk. clearbody Q r. clear Hval HQ Hexact HVA HVAle HVA0.
  exists k. split; [| split; [exact Hround |]].
  - split; [exact Hk0 |].
    assert (Hlt : (IZR k < IZR 641)%R) by (simpl; lra).
    apply lt_IZR in Hlt. lia.
  - replace (640 * V / U)%R with (640 * r)%R; [lra |].
    rewrite <- HrU. field. lra.
Qed.

(** X5. For an image whose width and height are positive integers the
    aspect ratio is kept up to rounding: one axis is scaled to exactly 640
    pixels and the other to a whole number of pixels within 0.52 of its
    exact share, [640 * h / w] or [640 * w / h]. *)
Theorem letterbox_keeps_aspect_ratio (w h : float) :
  JS.Number_isInteger w = true -> (1 <=? w)%float = true ->
  JS.Number_isInteger h = true -> (1 <=? h)%float = true ->
  let lb := letterbox w h in
  exists kw kh : Z,
    scaledWidth lb = JS.of_Z kw /\ scaledHeight lb = JS.of_Z kh /\
    (kw = 640 /\ 0 <= kh <= 640 /\
     (- (/ 2 + / 50) <= IZR kh - 640 * val h / val w <= / 2 + / 50)%R
     \/
     kh = 640 /\ 0 <= kw <= 640 /\
     (- (/ 2 + / 50) <= IZR kw - 640 * val w / val h <= / 2 + / 50)%R).
Proof.
  intros Hwi Hw1 Hhi Hh1.
  pose proof (dimension_of_integer w Hwi Hw1) as Hw.
  pose proof (dimension_of_integer h Hhi Hh1) as Hh.
  destruct (scale_candidate w Hw) as [Ha _].
  destruct (scale_candidate h Hh) as [Hb _].
  unfold letterbox. cbv zeta. cbn [scaledWidth scaledHeight].
  destruct (Math_min_posfin _ _ Ha Hb) as [[-> Hle] | [-> Hle]].
  - destruct (scaled_value w h Hw Hh Hle) as (kh & Hkh & Hround & Hnear).
    exists 640, kh. rewrite (scaled_dominant w Hw), Hround.
    split; [reflexivity | split; [reflexivity |]]. left. auto.
  - destruct (scaled_value h w Hh Hw Hle) as (kw & Hkw & Hround & Hnear).
    exists kw, 640. rewrite (scaled_dominant h Hh), Hround.
    split; [reflexivity | split; [reflexivity |]]. right. auto.
Qed.

Lemma letterbox_keeps_aspect_ratio_witness :
  let lb := letterbox 1280 720 in
  exists kw kh : Z,
    scaledWidth lb = JS.of_Z kw /\ scaledHeight lb = JS.of_Z kh /\
    (kw = 640 /\ 0 <= kh <= 640 /\
     (- (/ 2 + / 50) <= IZR kh - 640 * val 720 / val 1280 <= / 2 + / 50)%R
     \/
     kh = 640 /\ 0 <= kw <= 640 /\
     (- (/ 2 + / 50) <= IZR kw - 640 * val 1280 / val 720 <= / 2 + / 50)%R).
Proof.
  apply (letterbox_keeps_aspect_ratio 1280 720); reflexivity.
Defined.

(** ** What the detections carry *)

(** X6. Whatever the length of the raw sequence, every detection that
    [processDetections] returns carries a confidence that is a Number
    strictly above 0.5 (never NaN, never missing); when the length is a
    multiple of 6 its class is a Number too. *)
Theorem detections_are_confident
    (raw : list float) (originalWidth originalHeight scale : float)
    (d : Detection) :
  In d (processDetections raw originalWidth originalHeight scale) ->
  (exists c : float, confidence d = JS.Num c /\ (0.5 <? c)%float = true) /\
  ((length raw mod 6 = 0)%nat -> exists k : float, classId d = JS.Num k).
Proof.
  revert raw d. refine (rows_ind _ _ _ _).
  - intros d [].
  - intros r Hne Hlt d Hin. rewrite processDetections_partial in Hin by exact Hlt.
    split.
    + destruct r as [| a [| b [| c [| d' [| e [| f r]]]]]]; try destruct Hin.
      simpl in Hin. destruct (0.5 <? e)%float eqn:He; [| destruct Hin].
      destruct Hin as [<- | []]. exists e. split; [reflexivity | exact He].
    + intros Hmod. no_partial_row.
  - intros a b c d' e f rest IH d Hin.
    rewrite processDetections_full in Hin. apply in_app_or in Hin.
    destruct Hin as [Hin | Hin].
    + destruct (0.5 <? e)%float eqn:He; [| destruct Hin].
      destruct Hin as [<- | []]. split.
      * exists e. split; [reflexivity | exact He].
      * intros _. exists f. reflexivity.
    + destruct (IH d Hin) as [Hc Hk]. split; [exact Hc |].
      intros Hmod. apply Hk. exact (mod6_tail Hmod).
Qed.

Lemma detections_are_confident_witness :
  (exists c : float, JS.Num 0.75 = JS.Num c /\ (0.5 <? c)%float = true) /\
  ((length [320; 320; 64; 64; 0.75; 0;  1; 2; 3; 4; nan; 5]%float mod 6 = 0)%nat ->
   exists k : float, JS.Num 0 = JS.Num k).
Proof.
  apply (detections_are_confident
           [320; 320; 64; 64; 0.75; 0;  1; 2; 3; 4; nan; 5]%float 640 640 1
           {| x := 320; y := 320; width := 64; height := 64;
              confidence := JS.Num 0.75; classId := JS.Num 0 |}).
  left. reflexivity.
Defined.

(** X7. A complete row whose confidence is not above 0.5, NaN included,
    has no influence on the result: taking it out of the raw sequence
    leaves the detection list as it is. *)
Theorem unconfident_row_is_ignored
    (before after : list float) (a b c d e f : float)
    (originalWidth originalHeight scale : float) :
  (length before mod 6 = 0)%nat ->
  (0.5 <? e)%float = false ->
  processDetections (before ++ a :: b :: c :: d :: e :: f :: after)
    originalWidth originalHeight scale =
  processDetections (before ++ after) originalWidth originalHeight scale.
Proof.
  intros Hmod He.
  rewrite !processDetections_app by exact Hmod.
  rewrite processDetections_full, He. reflexivity.
Qed.

Lemma unconfident_row_is_ignored_witness :
  processDetections
    ([320; 320; 64; 64; 0.75; 0] ++ 1 :: 2 :: 3 :: 4 :: nan :: 5 ::
     [64; 32; 16; 8; 1; 3])%float 1280 720 0.5 =
  processDetections
    ([320; 320; 64; 64; 0.75; 0] ++ [64; 32; 16; 8; 1; 3])%float 1280 720 0.5.
Proof.
  apply unconfident_row_is_ignored; reflexivity.
Defined.

(** How [predict] fails: in the preprocessing, in the inference, or at
    the check of the model output. *)
Lemma predict_throws
    (sharp : Sharp.Library) (run : list float -> result (option Tensor))
    (imagePath message : string) :
  predict sharp run imagePath = Throw message <->
  preprocessImage sharp imagePath = Throw message \/
  exists pre : Preprocessed,
    preprocessImage sharp imagePath = Ok pre /\
    (run (buffer pre) = Throw message \/
     message = "Invalid Model Output"%string /\
     (run (buffer pre) = Ok None \/
      run (buffer pre) = Ok (Some {| data := None |}))).
Proof.
  unfold predict.
  destruct (preprocessImage sharp imagePath) as [pre | msg]; cbn [bind].
  - destruct (run (buffer pre)) as [[[[raw |]] |] | msg] eqn:Hrun; cbn [bind mapOutput data].
    + split; [discriminate |].
      intros [H | (pre' & Hpre & [H | (_ & [H | H])])]; try discriminate;
        injection Hpre as <-; congruence.
    + split.
      * intros H. injection H as <-. right. exists pre.
        split; [reflexivity |]. right. split; [reflexivity |]. right. exact Hrun.
      * intros [H | (pre' & Hpre & [H | (-> & _)])]; try discriminate;
          [injection Hpre as <-; congruence | reflexivity].
    + split.
      * intros H. injection H as <-. right. exists pre.
        split; [reflexivity |]. right. split; [reflexivity |]. left. exact Hrun.
      * intros [H | (pre' & Hpre & [H | (-> & _)])]; try discriminate;
          [injection Hpre as <-; congruence | reflexivity].
    + split.
      * intros H. injection H as <-. right. exists pre.
        split; [reflexivity |]. left. exact Hrun.
      * intros [H | (pre' & Hpre & [H | (-> & [H | H])])]; try discriminate;
          injection Hpre as <-; congruence.
  - split.
    + intros H. left. congruence.
    + intros [H | (pre' & Hpre & _)]; [congruence | discriminate].
Qed.

(** ** Signs of products and quotients *)

Lemma posfin_of_positiveFinite (v : float) :
  positiveFinite v = true -> posfin v.
Proof.
  unfold positiveFinite. intros H. apply andb_prop in H. destruct H as [H0 Hinf].
  rewrite FloatAxioms.ltb_spec in H0, Hinf.
  change (Prim2SF 0) with (S754_zero false) in H0.
  change (Prim2SF infinity) with (S754_infinity false) in Hinf.
  destruct (Prim2SF v) as [s | s | | s m e] eqn:Hv; try discriminate.
  - destruct s; discriminate.
  - destruct s; [discriminate |]. exists m, e. exact Hv.
Qed.

(** The Numbers [v] with [0 <= v]: a zero of either sign, a positive
    finite Number or +Infinity. *)
Lemma nonnegative_cases (v : float) :
  (0 <=? v)%float = true <->
  (exists s, Prim2SF v = S754_zero s) \/ posfin v \/
  Prim2SF v = S754_infinity false.
Proof.
  rewrite FloatAxioms.leb_spec. change (Prim2SF 0) with (S754_zero false).
  unfold posfin.
  destruct (Prim2SF v) as [s | s | | s m e]; cbn.
  - split; [eauto | reflexivity].
  - destruct s; split; try discriminate; auto.
    intros [[s H] | [(m & e & H) | H]]; discriminate.
  - split; [discriminate |].
    intros [[s H] | [(m & e & H) | H]]; discriminate.
  - destruct s; split; try discriminate; eauto.
    intros [[s H] | [(m' & e' & H) | H]]; discriminate.
Qed.

(** [binary_round_aux] gives its result the sign it is told. *)
Lemma binary_round_aux_sign (sx : bool) (mx ex : Z) (lx : location) :
  match binary_round_aux prec emax sx mx ex lx with
  | S754_zero s | S754_infinity s | S754_finite s _ _ => s = sx
  | S754_nan => True
  end.
Proof.
  unfold binary_round_aux.
  destruct (shr_fexp prec emax mx ex lx) as [mrs' e'].
  destruct (shr_fexp prec emax _ e' loc_Exact) as [mrs'' e''].
  destruct (shr_m mrs''); [reflexivity | | exact I].
  destruct (Z.leb e'' (emax - prec)); reflexivity.
Qed.

Lemma rounded_nonnegative (r : spec_float) (x : R) :
  approx r false x ->
  match r with
  | S754_zero s | S754_infinity s | S754_finite s _ _ => s = false
  | S754_nan => True
  end ->
  SFleb (S754_zero false) r = true.
Proof.
  destruct r as [s | s | | s m e]; cbn; intros Happ Hsign.
  - reflexivity.
  - subst s. reflexivity.
  - contradiction.
  - subst s. reflexivity.
Qed.

Lemma mul_rounded (a b : float) :
  posfin a -> posfin b -> (0 <=? a * b)%float = true.
Proof.
  intros Ha Hb.
  pose proof (val_posfin a Ha) as Hpa. pose proof (val_posfin b Hb) as Hpb.
  destruct Ha as (ma & ea & Ha). destruct Hb as (mb & eb & Hb).
  rewrite FloatAxioms.leb_spec, FloatAxioms.mul_spec.
  change (Prim2SF 0) with (S754_zero false).
  unfold val in *. rewrite Ha, Hb in *.
  unfold SF64mul, SFmul. simpl xorb. simpl SF2R in *.
  apply (rounded_nonnegative _ (IZR (Zpos (ma * mb)) * bpow (ea + eb))%R).
  - apply binary_round_aux_approx.
    + lia.
    + pose proof (bpow_pos (ea + eb)).
      assert (0 < IZR (Zpos (ma * mb)))%R by (apply IZR_lt; lia). nra.
    + reflexivity.
    + left. reflexivity.
  - apply binary_round_aux_sign.
Qed.

Lemma div_rounded (a b : float) :
  posfin a -> posfin b -> (0 <=? a / b)%float = true.
Proof.
  intros Ha Hb.
  destruct Ha as (ma & ea & Ha). destruct Hb as (mb & eb & Hb).
  rewrite FloatAxioms.leb_spec, FloatAxioms.div_spec.
  change (Prim2SF 0) with (S754_zero false).
  rewrite Ha, Hb. unfold SF64div, SFdiv. simpl xorb.
  destruct (SFdiv_core_binary prec emax (Zpos ma) ea (Zpos mb) eb)
    as [[mz ez] lz] eqn:Hcore.
  destruct (div_core_spec ma mb ea eb mz ez lz Hcore) as (Hmz & Hx & Hexact & Hgran).
  eapply rounded_nonnegative.
  - apply binary_round_aux_approx; eauto.
  - apply binary_round_aux_sign.
Qed.

Lemma mul_nonnegative (a b : float) :
  (0 <=? a)%float = true -> posfin b -> (0 <=? a * b)%float = true.
Proof.
  intros Ha Hb. apply nonnegative_cases in Ha.
  destruct Ha as [[s Ha] | [Ha | Ha]].
  - destruct Hb as (mb & eb & Hb).
    rewrite FloatAxioms.leb_spec, FloatAxioms.mul_spec, Ha, Hb. reflexivity.
  - apply mul_rounded; assumption.
  - destruct Hb as (mb & eb & Hb).
    rewrite FloatAxioms.leb_spec, FloatAxioms.mul_spec, Ha, Hb. reflexivity.
Qed.

Lemma div_nonnegative (a b : float) :
  (0 <=? a)%float = true -> posfin b -> (0 <=? a / b)%float = true.
Proof.
  intros Ha Hb. apply nonnegative_cases in Ha.
  destruct Ha as [[s Ha] | [Ha | Ha]].
  - destruct Hb as (mb & eb & Hb).
    rewrite FloatAxioms.leb_spec, FloatAxioms.div_spec, Ha, Hb. reflexivity.
  - apply div_rounded; assumption.
  - destruct Hb as (mb & eb & Hb).
    rewrite FloatAxioms.leb_spec, FloatAxioms.div_spec, Ha, Hb. reflexivity.
Qed.

Lemma originalValue_nonnegative (v dimension scale : float) :
  (0 <=? v)%float = true -> posfin dimension -> posfin scale ->
  (0 <=? Spec.originalValue v dimension scale)%float = true.
Proof.
  intros Hv Hd Hs. unfold Spec.originalValue.
  apply div_nonnegative; [| exact Hs].
  apply mul_nonnegative; [| exact Hd].
  apply div_nonnegative; [exact Hv | apply posfin_targetSize].
Qed.

(** X9. When the raw values are all at least 0 and the image size and the
    scale are positive finite Numbers, every detection has [x], [y],
    [width] and [height] at least 0 (possibly +Infinity, never negative
    and never NaN), whatever the length of the raw sequence. *)
Theorem detections_are_nonnegative
    (raw : list float) (originalWidth originalHeight scale : float)
    (d : Detection) :
  positiveFinite originalWidth = true ->
  positiveFinite originalHeight = true ->
  positiveFinite scale = true ->
  Forall (fun v => (0 <=? v)%float = true) raw ->
  In d (processDetections raw originalWidth originalHeight scale) ->
  (0 <=? x d)%float = true /\ (0 <=? y d)%float = true /\
  (0 <=? width d)%float = true /\ (0 <=? height d)%float = true.
Proof.
  intros HW HH Hs.
  apply posfin_of_positiveFinite in HW, HH, Hs.
  revert raw d. refine (rows_ind _ _ _ _).
  - intros d _ [].
  - intros r Hne Hlt d Hall Hin.
    rewrite processDetections_partial in Hin by exact Hlt.
    destruct r as [| a [| b [| c [| d' [| e [| f r]]]]]]; try destruct Hin.
    simpl in Hin. destruct (0.5 <? e)%float; [| destruct Hin].
    destruct Hin as [<- | []]. cbn [x y width height].
    inversion Hall as [| ? ? Ha Hall1]; subst.
    inversion Hall1 as [| ? ? Hb Hall2]; subst.
    inversion Hall2 as [| ? ? Hc Hall3]; subst.
    inversion Hall3 as [| ? ? Hd Hall4]; subst.
    repeat split; apply originalValue_nonnegative; assumption.
  - intros a b c d' e f rest IH d Hall Hin.
    inversion Hall as [| ? ? Ha Hall1]; subst.
    inversion Hall1 as [| ? ? Hb Hall2]; subst.
    inversion Hall2 as [| ? ? Hc Hall3]; subst.
    inversion Hall3 as [| ? ? Hd Hall4]; subst.
    inversion Hall4 as [| ? ? He Hall5]; subst.
    inversion Hall5 as [| ? ? Hf Hall6]; subst.
    rewrite processDetections_full in Hin. apply in_app_or in Hin.
    destruct Hin as [Hin | Hin]; [| apply IH; assumption].
    destruct (0.5 <? e)%float; [| destruct Hin].
    destruct Hin as [<- | []]. cbn [Spec.mapped x y width height].
    cbn [Spec.xCenter Spec.yCenter Spec.rowWidth Spec.rowHeight].
    repeat split; apply originalValue_nonnegative; assumption.
Qed.

Lemma detections_are_nonnegative_witness :
  (0 <=? 2400)%float = true /\ (0 <=? 720)%float = true /\
  (0 <=? 80)%float = true /\ (0 <=? 45)%float = true.
Proof.
  apply (detections_are_nonnegative [600; 320; 20; 20; 0.75; 0]%float 1280 720 0.5
           {| x := 2400; y := 720; width := 80; height := 45;
              confidence := JS.Num 0.75; classId := JS.Num 0 |});
    try reflexivity.
  - repeat constructor.
  - left. reflexivity.
Defined.

(** ** The routes *)

Ltac route_step :=
  cbn [andThen await perform tryCatch respond ret effects outcome fst snd app
       bind].

(** The copy made by [new Float32Array(buffer)] is the buffer. *)
Lemma Float32Array_buffer (sharp : Sharp.Library) (imagePath : string)
    (pre : Preprocessed) :
  preprocessImage sharp imagePath = Ok pre ->
  Float32Array (buffer pre) = buffer pre.
Proof.
  intros Hpre.
  destruct (preprocessImage_ok sharp imagePath pre Hpre)
    as (metadata & rawBuffer & _ & _ & Hbuf & _).
  rewrite Hbuf. unfold Float32Array. rewrite map_map.
  apply map_ext. intros b. apply pixel_spec.
Qed.

Lemma equals_spec (v : Json.value) (s : string) :
  Json.equals v s = true <-> v = Json.Str s.
Proof.
  destruct v; cbn [Json.equals]; try (split; [discriminate | discriminate]).
  rewrite String.eqb_eq. split; [now intros -> | now intros [= ->]].
Qed.

Section RouteFacts.

Variable sharp : Sharp.Library.
Variable run : list float -> result (option Tensor).
Variable composite : string -> string -> string -> result unit.
Variable uuidv4 : string.
Variable path_join : list string -> string.
Variable dirname : string.
Variable toString : float -> string.
Variable cannotRead : string -> string.
Variable cannotDestructure : string -> string.
Variable mongoose : Mongoose.Library.
Variable bcrypt : Bcrypt.Library.
Variable jwt : Jwt.Library.
Variable validator : Validator.Library.
Variable JWT_SECRET : option string.

Local Notation predictRoute' :=
  (predictRoute sharp run composite uuidv4 path_join dirname toString
     cannotRead mongoose).
Local Notation approveRoute' := (approveRoute mongoose).
Local Notation registerRoute' :=
  (registerRoute cannotDestructure mongoose bcrypt jwt validator JWT_SECRET).
Local Notation loginRoute' :=
  (loginRoute cannotDestructure mongoose bcrypt jwt validator JWT_SECRET).
Local Notation registerAdminRoute' :=
  (registerAdminRoute cannotDestructure mongoose jwt JWT_SECRET).

(** X10. When [/predict] answers with success, the overlay was written
    first and the record created after it; the detections of the answer
    are those of the record, which are those that [predict] computes; the
    record is pending, and its image URL ends in the name of the file
    that was written. *)
Theorem predictRoute_answers_what_it_stored
    (file : option string) (body : Json.object) (resp : response) :
  outcome (predictRoute' file body) = Ok resp ->
  status resp = 200 ->
  exists (imagePath : string) (pre : Preprocessed)
         (detections : list Detection) (detectionData : Json.object),
    file = Some imagePath /\
    preprocessImage sharp imagePath = Ok pre /\
    predict sharp run imagePath = Ok detections /\
    let output := path_join [dirname; "uploads"; uuidv4 ++ ".jpg"]%string in
    let svg :=
      overlay toString (originalWidth pre) (originalHeight pre) detections in
    let document :=
      [ ("imageUrl",
         Json.Str ("http://localhost:5000/uploads/" ++ uuidv4 ++ ".jpg"));
        ("detections", Json.Arr (map Json.ofDetection detections));
        ("originalWidth", Json.Num (originalWidth pre));
        ("originalHeight", Json.Num (originalHeight pre));
        ("userId", Json.get body "userId");
        ("status", Json.Str "pending") ]%string in
    effects (predictRoute' file body) =
      [ToFile imagePath svg output; Create document] /\
    composite imagePath svg output = Ok tt /\
    Mongoose.create mongoose document = Ok detectionData /\
    json resp =
      [ ("success", Json.Bool true);
        ("detectionId", Json.get detectionData "_id");
        ("imageUrl", Json.get detectionData "imageUrl");
        ("detections", Json.Arr (map Json.ofDetection detections)) ]%string.
Proof.
  unfold predictRoute.
  destruct file as [imagePath |]; route_step;
    [| intros [= <-]; discriminate].
  destruct (preprocessImage sharp imagePath) as [pre | msg] eqn:Hpre;
    route_step; [| intros [= <-]; discriminate].
  rewrite (Float32Array_buffer _ _ _ Hpre).
  destruct (run (buffer pre)) as [output | msg] eqn:Hrun; route_step;
    [| intros [= <-]; discriminate].
  destruct (mapOutput output _ _ _) as [detections | msg] eqn:Hmap; route_step;
    [| intros [= <-]; discriminate].
  destruct (composite imagePath _ _) as [[] | msg] eqn:Hfile; route_step;
    [| intros [= <-]; discriminate].
  unfold record.
  destruct (Mongoose.create mongoose _) as [detectionData | msg] eqn:Hdb;
    route_step; [| intros [= <-]; discriminate].
  intros [= <-] _. exists imagePath, pre, detections, detectionData.
  cbv zeta. cbn [json]. repeat split; try assumption.
  unfold predict. rewrite Hpre. cbn [bind]. rewrite Hrun. exact Hmap.
Qed.

(** X11. When the preprocessing, the inference or the check of the model
    output fails, [/predict] writes no file and creates no record: it
    logs the error and answers 500 with the message as [details]. *)
Theorem predictRoute_fails_before_writing
    (imagePath : string) (body : Json.object) (message : string) :
  predict sharp run imagePath = Throw message ->
  predictRoute' (Some imagePath) body =
  ([ConsoleError "Prediction Error:" message], Ok (predictFailure message)).
Proof.
  unfold predictRoute, predict. route_step.
  destruct (preprocessImage sharp imagePath) as [pre | msg] eqn:Hpre;
    route_step; [| now intros [= ->]].
  rewrite (Float32Array_buffer _ _ _ Hpre).
  destruct (run (buffer pre)) as [output | msg]; route_step;
    [| now intros [= ->]].
  destruct (mapOutput output _ _ _) as [detections | msg]; route_step;
    [discriminate | now intros [= ->]].
Qed.

(** X8. [/predict] fails before it has written or stored anything, its
    one call being the log of the error and its answer the 500 failure
    with the message, in exactly four ways: the request has no file, the
    preprocessing fails, the construction of the tensor or the inference
    fails, or the model gives no output or an output without data, which
    is the error [Invalid Model Output]; the values in the data never
    make it fail. *)
Theorem predictRoute_fails_early_in_four_ways
    (file : option string) (body : Json.object) (message : string) :
  predictRoute' file body =
    ([ConsoleError "Prediction Error:" message], Ok (predictFailure message))
  <->
  (file = None /\ message = cannotRead "path") \/
  exists imagePath : string,
    file = Some imagePath /\
    (preprocessImage sharp imagePath = Throw message \/
     exists pre : Preprocessed,
       preprocessImage sharp imagePath = Ok pre /\
       (run (Float32Array (buffer pre)) = Throw message \/
        message = "Invalid Model Output"%string /\
        (run (Float32Array (buffer pre)) = Ok None \/
         run (Float32Array (buffer pre)) = Ok (Some {| data := None |})))).
Proof.
  unfold predictRoute. destruct file as [imagePath |]; route_step.
  2:{ split.
      - intros [= <-]. left. split; reflexivity.
      - intros [[_ ->] | (p & Hp & _)]; [reflexivity | discriminate]. }
  destruct (preprocessImage sharp imagePath) as [pre | msg] eqn:Hpre;
    route_step.
  2:{ split.
      - intros [= <-]. right. exists imagePath. split; [reflexivity |].
        left. exact Hpre.
      - intros [[H _] | (p & [= <-] & [H | (pre & Hpre' & _)])];
          [discriminate | | congruence].
        rewrite Hpre in H. now injection H as ->. }
  assert (Hcases : forall P : Prop,
    (P <->
     (run (Float32Array (buffer pre)) = Throw message \/
      message = "Invalid Model Output"%string /\
      (run (Float32Array (buffer pre)) = Ok None \/
       run (Float32Array (buffer pre)) = Ok (Some {| data := None |})))) ->
    (P <->
     (Some imagePath = None /\ message = cannotRead "path") \/
     exists imagePath0 : string,
       Some imagePath = Some imagePath0 /\
       (preprocessImage sharp imagePath0 = Throw message \/
        exists pre0 : Preprocessed,
          preprocessImage sharp imagePath0 = Ok pre0 /\
          (run (Float32Array (buffer pre0)) = Throw message \/
           message = "Invalid Model Output"%string /\
           (run (Float32Array (buffer pre0)) = Ok None \/
            run (Float32Array (buffer pre0)) = Ok (Some {| data := None |})))))).
  { intros P HP. rewrite HP. split.
    - intros H. right. exists imagePath. split; [reflexivity |].
      right. exists pre. split; [exact Hpre | exact H].
    - intros [[H _] | (p & [= <-] & [H | (pre0 & Hpre0 & H)])];
        [discriminate | congruence |].
      rewrite Hpre in Hpre0. injection Hpre0 as <-. exact H. }
  apply Hcases. clear Hcases.
  destruct (run (Float32Array (buffer pre))) as [[[[raw |]] |] | msg];
    route_step; cbn [mapOutput data]; route_step.
  - split.
    + destruct (composite imagePath _ _) as [[] | msg]; route_step;
        [destruct (Mongoose.create mongoose _) as [d | msg]; route_step |];
        discriminate.
    + intros [H | (_ & [H | H])]; discriminate.
  - split.
    + intros [= <-]. right. split; [reflexivity |]. right. reflexivity.
    + intros [H | (-> & _)]; [discriminate | reflexivity].
  - split.
    + intros [= <-]. right. split; [reflexivity |]. left. reflexivity.
    + intros [H | (-> & _)]; [discriminate | reflexivity].
  - split.
    + intros [= <-]. left. reflexivity.
    + intros [[= ->] | (_ & [H | H])]; [reflexivity | discriminate ..].
Qed.

(** X12. No error escapes [/predict]: whatever the request and the
    collaborators do, it answers.  A request without a file is answered
    with the 500 failure before any other call.  A record is created only
    after the overlay has been written, and written successfully.  The
    answer is 200 only after the overlay was written and the record
    created, both successfully, these being its only calls; otherwise it
    is the 500 failure that carries the message of the error, logged as
    the last call, after nothing, after an overlay that could not be
    written, or after a record that could not be created. *)
Theorem predictRoute_always_answers
    (file : option string) (body : Json.object) :
  exists resp : response,
    outcome (predictRoute' file body) = Ok resp /\
    (file = None ->
     predictRoute' file body =
       ([ConsoleError "Prediction Error:" (cannotRead "path")],
        Ok (predictFailure (cannotRead "path")))) /\
    (forall document : Json.object,
       In (Create document) (effects (predictRoute' file body)) ->
       exists (input svg output : string) (rest : list effect),
         effects (predictRoute' file body) =
           ToFile input svg output :: Create document :: rest /\
         composite input svg output = Ok tt) /\
    ((status resp = 200 /\
      exists (input svg output : string)
             (document detectionData : Json.object),
        effects (predictRoute' file body) =
          [ToFile input svg output; Create document] /\
        composite input svg output = Ok tt /\
        Mongoose.create mongoose document = Ok detectionData) \/
     (exists (message : string) (done : list effect),
        resp = predictFailure message /\
        effects (predictRoute' file body) =
          done ++ [ConsoleError "Prediction Error:" message] /\
        (done = [] \/
         (exists input svg output : string,
            done = [ToFile input svg output] /\
            composite input svg output = Throw message) \/
         (exists (input svg output : string) (document : Json.object),
            done = [ToFile input svg output; Create document] /\
            composite input svg output = Ok tt /\
            Mongoose.create mongoose document = Throw message)))).
Proof.
  unfold predictRoute.
  assert (Hfail : forall (file0 : option string) (message : string),
    (file0 = None -> message = cannotRead "path") ->
    exists resp : response,
      Ok (predictFailure message) = Ok resp /\
      (file0 = None ->
       ([ConsoleError "Prediction Error:" message],
        @Ok response (predictFailure message)) =
       ([ConsoleError "Prediction Error:" (cannotRead "path")],
        Ok (predictFailure (cannotRead "path")))) /\
      (forall document : Json.object,
         In (Create document) [ConsoleError "Prediction Error:" message] ->
         exists (input svg output : string) (rest : list effect),
           [ConsoleError "Prediction Error:" message] =
             ToFile input svg output :: Create document :: rest /\
           composite input svg output = Ok tt) /\
      ((status resp = 200 /\
        exists (input svg output : string)
               (document detectionData : Json.object),
          [ConsoleError "Prediction Error:" message] =
            [ToFile input svg output; Create document] /\
          composite input svg output = Ok tt /\
          Mongoose.create mongoose document = Ok detectionData) \/
       (exists (message0 : string) (done : list effect),
          resp = predictFailure message0 /\
          [ConsoleError "Prediction Error:" message] =
            done ++ [ConsoleError "Prediction Error:" message0] /\
          (done = [] \/
           (exists input svg output : string,
              done = [ToFile input svg output] /\
              composite input svg output = Throw message0) \/
           (exists (input svg output : string) (document : Json.object),
              done = [ToFile input svg output; Create document] /\
              composite input svg output = Ok tt /\
              Mongoose.create mongoose document = Throw message0))))).
  { intros file0 message Hnone. eexists. split; [reflexivity |].
    split; [| split].
    - intros H. rewrite (Hnone H). reflexivity.
    - intros document [H | []]. discriminate.
    - right. exists message, []. repeat split. left. reflexivity. }
  destruct file as [imagePath |]; route_step;
    [| apply (Hfail None); reflexivity].
  destruct (preprocessImage sharp imagePath) as [pre | msg]; route_step;
    [| apply (Hfail (Some imagePath)); discriminate].
  destruct (run _) as [output | msg]; route_step;
    [| apply (Hfail (Some imagePath)); discriminate].
  destruct (mapOutput output _ _ _) as [detections | msg]; route_step;
    [| apply (Hfail (Some imagePath)); discriminate].
  clear Hfail.
  destruct (composite imagePath _ _) as [[] | msg] eqn:Hfile; route_step.
  2:{ eexists. split; [reflexivity |]. split; [discriminate |]. split.
      - intros document [H | [H | []]]; discriminate.
      - right.
        match type of Hfile with
        | composite ?a ?b ?c = _ => exists msg, [ToFile a b c]
        end.
        repeat split. right. left. eauto. }
  destruct (Mongoose.create mongoose _) as [detectionData | msg] eqn:Hdb;
    route_step.
  - eexists. split; [reflexivity |]. split; [discriminate |]. split.
    + intros document [H | [[= <-] | []]]; [discriminate |]. eauto 8.
    + left. split; [reflexivity |]. eauto 10.
  - eexists. split; [reflexivity |]. split; [discriminate |]. split.
    + intros document [H | [[= <-] | [H | []]]]; try discriminate. eauto 8.
    + right.
      match type of Hfile with
      | composite ?a ?b ?c = _ =>
          match type of Hdb with
          | Mongoose.create _ ?d = _ => exists msg, [ToFile a b c; Create d]
          end
      end.
      repeat split. right. right. eauto 8.
Qed.

(** X13. [/approve/:id] acts for the role [admin] only: then its one call
    is the update of the status of that detection to [approved], and its
    answer is 200 with the detection, 404 when there is none, or none at
    all when the update fails, since the error is not caught; any other
    role is answered 403 without a call. *)
Theorem approveRoute_acts_for_admin_only (role : Json.value) (id : string) :
  (role = Json.Str "admin" /\
   effects (approveRoute' role id) =
     [Update id [ ("status", Json.Str "approved") ]%string] /\
   outcome (approveRoute' role id) =
     match Mongoose.findByIdAndUpdate mongoose id
             [ ("status", Json.Str "approved") ]%string with
     | Ok (Some detection) =>
         Ok {| status := 200;
               json := [ ("message", Json.Str "Image approved");
                         ("detection", Json.Obj detection) ]%string |}
     | Ok None => Ok (refusal 404 "Detection not found")
     | Throw message => Throw message
     end) \/
  (role <> Json.Str "admin" /\
   approveRoute' role id = ([], Ok (refusal 403 "Forbidden"))).
Proof.
  unfold approveRoute.
  destruct (Json.equals role "admin") eqn:Hrole; cbn [negb].
  - left. split; [now apply equals_spec |].
    destruct (Mongoose.findByIdAndUpdate mongoose id _) as [[d |] | msg];
      split; reflexivity.
  - right. split; [| reflexivity].
    intros H. apply equals_spec in H. congruence.
Qed.

(** X14. [/register] checks [JWT_SECRET] only after it has saved the user:
    with the secret missing or empty, a valid request for an unused
    address stores the user and is then answered 500. *)
Theorem registerRoute_saves_before_it_checks_the_secret
    (body : Json.object) (salt hashedPassword : string) :
  Validator.validationResult validator registerChecks (Some body) = [] ->
  Mongoose.findOne mongoose User (Json.get body "email") = Ok None ->
  Bcrypt.genSalt bcrypt 10 = Ok salt ->
  Bcrypt.hash bcrypt (Json.get body "password") salt = Ok hashedPassword ->
  let fields :=
    [ ("name", Json.get body "name"); ("email", Json.get body "email");
      ("password", Json.Str hashedPassword) ]%string in
  Mongoose.save mongoose User (Mongoose.construct mongoose User fields)
    = Ok tt ->
  secretMissing JWT_SECRET = true ->
  registerRoute' (Some body) =
  ([ Save User fields;
     ConsoleError "Registration Error:" "JWT_SECRET is missing in .env file" ],
   Ok (refusal 500 "JWT_SECRET is missing in .env file")).
Proof.
  intros Hvalid Hfind Hsalt Hhash fields Hsave Hsecret.
  unfold registerRoute. rewrite Hvalid. cbn [destructure]. route_step.
  rewrite Hfind. route_step. rewrite Hsalt. route_step.
  rewrite Hhash. route_step. fold fields. rewrite Hsave. route_step.
  rewrite Hsecret. reflexivity.
Qed.

(** X15. [/register] saves at most a [User], only for a request with a
    body that passed the checks and whose address was not found, and the
    password of what it saves is the hash that bcrypt made of the one in
    the request with a fresh salt of 10 rounds. *)
Theorem registerRoute_stores_the_hash
    (body : option Json.object) (model : Model) (fields : Json.object) :
  In (Save model fields) (effects (registerRoute' body)) ->
  model = User /\
  Validator.validationResult validator registerChecks body = [] /\
  exists request : Json.object,
    body = Some request /\
    Mongoose.findOne mongoose User (Json.get request "email") = Ok None /\
    exists salt hashedPassword : string,
      Bcrypt.genSalt bcrypt 10 = Ok salt /\
      Bcrypt.hash bcrypt (Json.get request "password") salt
        = Ok hashedPassword /\
      fields =
        [ ("name", Json.get request "name");
          ("email", Json.get request "email");
          ("password", Json.Str hashedPassword) ]%string.
Proof.
  unfold registerRoute.
  destruct (Validator.validationResult validator registerChecks body)
    as [| e errors]; route_step; [| intros []].
  destruct body as [request |]; cbn [destructure]; route_step; [| intros []].
  destruct (Mongoose.findOne mongoose User _) as [[user |] | msg] eqn:Hfind;
    route_step; try (intros [H | []]; discriminate); try (intros []).
  destruct (Bcrypt.genSalt bcrypt 10) as [salt | msg]; route_step;
    try (intros [H | []]; discriminate).
  destruct (Bcrypt.hash bcrypt _ salt) as [hashedPassword | msg] eqn:Hhash;
    route_step; try (intros [H | []]; discriminate).
  assert (Hall : forall rest : list effect,
    (forall m f, ~ In (Save m f) rest) ->
    In (Save model fields)
       (Save User
          [ ("name", Json.get request "name");
            ("email", Json.get request "email");
            ("password", Json.Str hashedPassword) ]%string :: rest) ->
    model = User /\ [] = @nil Json.value /\
    exists request0 : Json.object,
      Some request = Some request0 /\
      Mongoose.findOne mongoose User (Json.get request0 "email") = Ok None /\
      exists salt0 hashedPassword0 : string,
        Ok salt = Ok salt0 /\
        Bcrypt.hash bcrypt (Json.get request0 "password") salt0
          = Ok hashedPassword0 /\
        fields =
          [ ("name", Json.get request0 "name");
            ("email", Json.get request0 "email");
            ("password", Json.Str hashedPassword0) ]%string).
  { intros rest Hrest [[= <- <-] | H]; [| now apply Hrest in H].
    split; [reflexivity |]. split; [reflexivity |].
    exists request. split; [reflexivity |]. split; [exact Hfind |].
    exists salt, hashedPassword. repeat split. exact Hhash. }
  destruct (Mongoose.save mongoose User _) as [[] | msg]; route_step.
  - destruct (secretMissing JWT_SECRET); route_step.
    + apply Hall. intros m f [H | []]. discriminate.
    + destruct (Jwt.sign jwt _ JWT_SECRET) as [token | msg]; route_step;
        apply Hall; intros m f; [intros [] | intros [H | []]; discriminate].
  - apply Hall. intros m f [H | []]. discriminate.
Qed.

(** X16. [/login] answers with a token only when the request has a body
    that passed the checks, the address was found in the collection named
    by the role of the request ([Admin] for [admin], [User] otherwise),
    and bcrypt found the password to match the stored one; the token then
    carries the identifier and the role of the stored user, not the role
    of the request. *)
Theorem loginRoute_token_requires_match
    (body : option Json.object) (resp : response) :
  outcome (loginRoute' body) = Ok resp ->
  status resp = 200 ->
  Validator.validationResult validator loginChecks body = [] /\
  exists (request user : Json.object) (token : string),
    body = Some request /\
    Mongoose.findOne mongoose
      (if Json.equals (Json.get request "role") "admin" then Admin else User)
      (Json.get request "email") = Ok (Some user) /\
    Bcrypt.compare bcrypt (Json.get request "password")
      (Json.get user "password") = Ok true /\
    Jwt.sign jwt
      [ ("id", Json.get user "_id"); ("role", Json.get user "role") ]%string
      JWT_SECRET = Ok token /\
    json resp =
      [ ("token", Json.Str token);
        ("user",
         Json.Obj [ ("id", Json.get user "_id");
                    ("name", Json.get user "name");
                    ("role", Json.get user "role") ]) ]%string.
Proof.
  unfold loginRoute.
  destruct (Validator.validationResult validator loginChecks body)
    as [| e errors]; route_step; [| intros [= <-]; discriminate].
  destruct body as [request |]; cbn [destructure]; route_step;
    [| discriminate].
  destruct (Mongoose.findOne mongoose _ _) as [[user |] | msg] eqn:Hfind;
    route_step; try (intros [= <-]; discriminate).
  destruct (Bcrypt.compare bcrypt _ _) as [[|] | msg] eqn:Hmatch;
    route_step; try (intros [= <-]; discriminate).
  destruct (Jwt.sign jwt _ JWT_SECRET) as [token | msg] eqn:Hsign;
    route_step; try (intros [= <-]; discriminate).
  intros [= <-] _. split; [reflexivity |].
  exists request, user, token. repeat split; assumption.
Qed.

(** X17. [/login] gives the same answer, 400 with [Invalid credentials],
    for an address that is not found and for a password that does not
    match; in both cases its one call is the console log of the address,
    the password and the role of the request. *)
Theorem loginRoute_failures_look_alike (body : Json.object) :
  Validator.validationResult validator loginChecks (Some body) = [] ->
  let model :=
    if Json.equals (Json.get body "role") "admin" then Admin else User in
  Mongoose.findOne mongoose model (Json.get body "email") = Ok None \/
  (exists user : Json.object,
     Mongoose.findOne mongoose model (Json.get body "email") = Ok (Some user) /\
     Bcrypt.compare bcrypt (Json.get body "password")
       (Json.get user "password") = Ok false) ->
  loginRoute' (Some body) =
  ([ ConsoleLog "I am inside login route"
       (Json.Obj [ ("email", Json.get body "email");
                   ("password", Json.get body "password");
                   ("role", Json.get body "role") ]%string) ],
   Ok (refusal 400 "Invalid credentials")).
Proof.
  intros Hvalid model H. unfold loginRoute. rewrite Hvalid.
  cbn [destructure]. route_step.
  fold model. destruct H as [Hfind | (user & Hfind & Hmatch)];
    rewrite Hfind; route_step; [reflexivity |].
  rewrite Hmatch. reflexivity.
Qed.

(** X18. [/register-admin] saves at most an [Admin], only when the
    request has a body whose three fields are truthy and the address was
    not found, and what it gives the model to save is the request's name,
    address and password as they came: no hash is made of the
    password. *)
Theorem registerAdminRoute_stores_the_password_as_sent
    (body : option Json.object) (model : Model) (fields : Json.object) :
  In (Save model fields) (effects (registerAdminRoute' body)) ->
  model = Admin /\
  exists request : Json.object,
    body = Some request /\
    Json.truthy (Json.get request "name") = true /\
    Json.truthy (Json.get request "email") = true /\
    Json.truthy (Json.get request "password") = true /\
    Mongoose.findOne mongoose Admin (Json.get request "email") = Ok None /\
    fields =
      [ ("name", Json.get request "name");
        ("email", Json.get request "email");
        ("password", Json.get request "password") ]%string.
Proof.
  unfold registerAdminRoute.
  destruct body as [request |]; cbn [destructure]; route_step; [| intros []].
  destruct (Json.truthy (Json.get request "name")) eqn:Hname;
    cbn [negb orb]; route_step; [| intros []].
  destruct (Json.truthy (Json.get request "email")) eqn:Hemail;
    cbn [negb orb]; route_step; [| intros []].
  destruct (Json.truthy (Json.get request "password")) eqn:Hpassword;
    cbn [negb orb]; route_step; [| intros []].
  destruct (Mongoose.findOne mongoose Admin _) as [[admin |] | msg] eqn:Hfind;
    route_step; try (intros []).
  destruct (Mongoose.save mongoose Admin _) as [[] | msg]; route_step.
  - destruct (Jwt.sign jwt _ JWT_SECRET) as [token | msg]; route_step;
      (intros [[= <- <-] | []]; split; [reflexivity |];
       exists request; repeat split; assumption).
  - intros [[= <- <-] | []]. split; [reflexivity |].
    exists request. repeat split; assumption.
Qed.

(** X19. [/register-admin] signs the token only after it has saved the
    admin: when the signing fails, as it does without a secret, the
    admin is stored and the request is answered 500. *)
Theorem registerAdminRoute_saves_before_it_signs
    (body : Json.object) (message : string) :
  Json.truthy (Json.get body "name") = true ->
  Json.truthy (Json.get body "email") = true ->
  Json.truthy (Json.get body "password") = true ->
  Mongoose.findOne mongoose Admin (Json.get body "email") = Ok None ->
  let fields :=
    [ ("name", Json.get body "name"); ("email", Json.get body "email");
      ("password", Json.get body "password") ]%string in
  let admin := Mongoose.construct mongoose Admin fields in
  Mongoose.save mongoose Admin admin = Ok tt ->
  Jwt.sign jwt
    [ ("id", Json.get admin "_id"); ("role", Json.Str "admin") ]%string
    JWT_SECRET = Throw message ->
  registerAdminRoute' (Some body) =
  ([Save Admin fields], Ok (refusal 500 "Server error")).
Proof.
  intros Hname Hemail Hpassword Hfind fields admin Hsave Hsign.
  unfold registerAdminRoute. cbn [destructure]. route_step.
  rewrite Hname, Hemail, Hpassword.
  cbn [negb orb]. route_step. rewrite Hfind. route_step.
  fold fields. fold admin. rewrite Hsave. route_step.
  rewrite Hsign. reflexivity.
Qed.

(** X20. For a request whose body is there, no error escapes [/register],
    [/login] and [/register-admin]: whatever the body and the
    collaborators do, each of them answers, with the status 200, 400 or
    500.  For a request whose body is undefined, the three routes
    destructure it before their [try]: [/register-admin] then makes no
    call and sends no answer, the TypeError escaping it, and so do
    [/register] and [/login] unless the validation reports errors, which
    they answer with 400. *)
Theorem account_routes_answer_a_body (body : option Json.object) :
  match body with
  | Some _ =>
      answers (registerRoute' body) /\ answers (loginRoute' body) /\
      answers (registerAdminRoute' body)
  | None =>
      registerRoute' None =
        match Validator.validationResult validator registerChecks None with
        | [] => ([], Throw (cannotDestructure "name"))
        | errors =>
            ([], Ok {| status := 400;
                       json := [ ("errors", Json.Arr errors) ]%string |})
        end /\
      loginRoute' None =
        match Validator.validationResult validator loginChecks None with
        | [] => ([], Throw (cannotDestructure "email"))
        | errors =>
            ([], Ok {| status := 400;
                       json := [ ("errors", Json.Arr errors) ]%string |})
        end /\
      registerAdminRoute' None = ([], Throw (cannotDestructure "name"))
  end.
Proof.
  destruct body as [request |].
  2:{ unfold registerRoute, loginRoute, registerAdminRoute.
      split; [| split]; [| | reflexivity].
      - destruct (Validator.validationResult validator registerChecks None);
          reflexivity.
      - destruct (Validator.validationResult validator loginChecks None);
          reflexivity. }
  unfold answers. split; [| split].
  - unfold registerRoute.
    destruct (Validator.validationResult validator registerChecks _);
      cbn [destructure]; route_step;
      [| eexists; split; [reflexivity | cbn; auto]].
    destruct (Mongoose.findOne mongoose User _) as [[user |] | msg];
      route_step; try (eexists; split; [reflexivity | cbn; auto]).
    destruct (Bcrypt.genSalt bcrypt 10) as [salt | msg]; route_step;
      try (eexists; split; [reflexivity | cbn; auto]).
    destruct (Bcrypt.hash bcrypt _ salt) as [hashedPassword | msg];
      route_step; try (eexists; split; [reflexivity | cbn; auto]).
    destruct (Mongoose.save mongoose User _) as [[] | msg]; route_step;
      try (eexists; split; [reflexivity | cbn; auto]).
    destruct (secretMissing JWT_SECRET); route_step;
      try (eexists; split; [reflexivity | cbn; auto]).
    destruct (Jwt.sign jwt _ JWT_SECRET) as [token | msg]; route_step;
      eexists; split; try reflexivity; cbn; auto.
  - unfold loginRoute.
    destruct (Validator.validationResult validator loginChecks _);
      cbn [destructure]; route_step;
      [| eexists; split; [reflexivity | cbn; auto]].
    destruct (Mongoose.findOne mongoose _ _) as [[user |] | msg];
      route_step; try (eexists; split; [reflexivity | cbn; auto]).
    destruct (Bcrypt.compare bcrypt _ _) as [[|] | msg]; route_step;
      try (eexists; split; [reflexivity | cbn; auto]).
    destruct (Jwt.sign jwt _ JWT_SECRET) as [token | msg]; route_step;
      eexists; split; try reflexivity; cbn; auto.
  - unfold registerAdminRoute. cbn [destructure]. route_step.
    destruct (negb _ || negb _ || negb _); route_step;
      [eexists; split; [reflexivity | cbn; auto] |].
    destruct (Mongoose.findOne mongoose Admin _) as [[admin |] | msg];
      route_step; try (eexists; split; [reflexivity | cbn; auto]).
    destruct (Mongoose.save mongoose Admin _) as [[] | msg]; route_step;
      try (eexists; split; [reflexivity | cbn; auto]).
    destruct (Jwt.sign jwt _ JWT_SECRET) as [token | msg]; route_step;
      eexists; split; try reflexivity; cbn; auto.
Qed.

End RouteFacts.

(** The routes on the test doubles. *)

Lemma predictRoute_answers_what_it_stored_witness :
  let sharp := fakeSharp 1280 720 [Byte.x00; Byte.xff; Byte.x33] in
  let body := [ ("userId", Json.Str "64e9") ]%string in
  let route :=
    predictRoute sharp fakeRun fakeComposite "1b9d6bcd" fakeJoin
      "/srv/backend" showWhole fakeCannotRead (fakeMongoose [])
      (Some "uploads/road.jpg"%string) body in
  outcome route = Ok (exampleAnswer) /\
  exists (imagePath : string) (pre : Preprocessed)
         (detections : list Detection) (detectionData : Json.object),
    Some "uploads/road.jpg"%string = Some imagePath /\
    preprocessImage sharp imagePath = Ok pre /\
    predict sharp fakeRun imagePath = Ok detections /\
    let output :=
      fakeJoin ["/srv/backend"; "uploads"; "1b9d6bcd" ++ ".jpg"]%string in
    let svg :=
      overlay showWhole (originalWidth pre) (originalHeight pre) detections in
    let document :=
      [ ("imageUrl",
         Json.Str ("http://localhost:5000/uploads/" ++ "1b9d6bcd" ++ ".jpg"));
        ("detections", Json.Arr (map Json.ofDetection detections));
        ("originalWidth", Json.Num (originalWidth pre));
        ("originalHeight", Json.Num (originalHeight pre));
        ("userId", Json.get body "userId");
        ("status", Json.Str "pending") ]%string in
    effects route = [ToFile imagePath svg output; Create document] /\
    fakeComposite imagePath svg output = Ok tt /\
    Mongoose.create (fakeMongoose []) document = Ok detectionData /\
    json exampleAnswer =
      [ ("success", Json.Bool true);
        ("detectionId", Json.get detectionData "_id");
        ("imageUrl", Json.get detectionData "imageUrl");
        ("detections", Json.Arr (map Json.ofDetection detections)) ]%string.
Proof.
  cbv zeta. split; [vm_compute; reflexivity |].
  apply (predictRoute_answers_what_it_stored
           (fakeSharp 1280 720 [Byte.x00; Byte.xff; Byte.x33]) fakeRun
           fakeComposite "1b9d6bcd" fakeJoin "/srv/backend" showWhole
           fakeCannotRead (fakeMongoose []) (Some "uploads/road.jpg"%string)
           [ ("userId", Json.Str "64e9") ]%string exampleAnswer);
    vm_compute; reflexivity.
Defined.

Lemma predictRoute_fails_before_writing_witness :
  predictRoute brokenSharp fakeRun fakeComposite "1b9d6bcd" fakeJoin
    "/srv/backend" showWhole fakeCannotRead (fakeMongoose [])
    (Some "uploads/road.jpg"%string) [ ("userId", Json.Str "64e9") ]%string =
  ([ConsoleError "Prediction Error:" "Input file is missing"],
   Ok (predictFailure "Input file is missing")).
Proof.
  apply (predictRoute_fails_before_writing brokenSharp fakeRun fakeComposite
           "1b9d6bcd" fakeJoin "/srv/backend" showWhole fakeCannotRead
           (fakeMongoose []) "uploads/road.jpg"
           [ ("userId", Json.Str "64e9") ]%string "Input file is missing").
  reflexivity.
Defined.

Lemma registerRoute_saves_before_it_checks_the_secret_witness :
  registerRoute fakeCannotDestructure (fakeMongoose [alice]) fakeBcrypt
    fakeJwt lenientValidator None (Some bob) =
  ([ Save User
       [ ("name", Json.Str "Bob"); ("email", Json.Str "bob@example.org");
         ("password", Json.Str "$2a$10$secret2") ]%string;
     ConsoleError "Registration Error:" "JWT_SECRET is missing in .env file" ],
   Ok (refusal 500 "JWT_SECRET is missing in .env file")).
Proof.
  apply (registerRoute_saves_before_it_checks_the_secret
           fakeCannotDestructure (fakeMongoose [alice]) fakeBcrypt fakeJwt
           lenientValidator None bob "$2a$10$" "$2a$10$secret2");
    reflexivity.
Defined.

Lemma registerRoute_stores_the_hash_witness :
  User = User /\
  Validator.validationResult lenientValidator registerChecks (Some bob) = [] /\
  exists request : Json.object,
    Some bob = Some request /\
    Mongoose.findOne (fakeMongoose [alice]) User (Json.get request "email")
      = Ok None /\
    exists salt hashedPassword : string,
      Bcrypt.genSalt fakeBcrypt 10 = Ok salt /\
      Bcrypt.hash fakeBcrypt (Json.get request "password") salt
        = Ok hashedPassword /\
      [ ("name", Json.Str "Bob"); ("email", Json.Str "bob@example.org");
        ("password", Json.Str "$2a$10$secret2") ]%string =
      [ ("name", Json.get request "name");
        ("email", Json.get request "email");
        ("password", Json.Str hashedPassword) ]%string.
Proof.
  apply (registerRoute_stores_the_hash fakeCannotDestructure
           (fakeMongoose [alice]) fakeBcrypt fakeJwt lenientValidator
           (Some "s3cr3t"%string) (Some bob) User
           [ ("name", Json.Str "Bob"); ("email", Json.Str "bob@example.org");
             ("password", Json.Str "$2a$10$secret2") ]%string).
  left. reflexivity.
Defined.

Lemma loginRoute_token_requires_match_witness :
  let body :=
    [ ("email", Json.Str "alice@example.org");
      ("password", Json.Str "secret1"); ("role", Json.Str "user") ]%string in
  Validator.validationResult lenientValidator loginChecks (Some body) = [] /\
  exists (request user : Json.object) (token : string),
    Some body = Some request /\
    Mongoose.findOne (fakeMongoose [alice])
      (if Json.equals (Json.get request "role") "admin" then Admin else User)
      (Json.get request "email") = Ok (Some user) /\
    Bcrypt.compare fakeBcrypt (Json.get request "password")
      (Json.get user "password") = Ok true /\
    Jwt.sign fakeJwt
      [ ("id", Json.get user "_id"); ("role", Json.get user "role") ]%string
      (Some "s3cr3t"%string) = Ok token /\
    [ ("token", Json.Str "header.payload.signature");
      ("user",
       Json.Obj [ ("id", Json.Str "64e9"); ("name", Json.Str "Alice");
                  ("role", Json.Str "user") ]) ]%string =
      [ ("token", Json.Str token);
        ("user",
         Json.Obj [ ("id", Json.get user "_id");
                    ("name", Json.get user "name");
                    ("role", Json.get user "role") ]) ]%string.
Proof.
  apply (loginRoute_token_requires_match fakeCannotDestructure
           (fakeMongoose [alice]) fakeBcrypt fakeJwt lenientValidator
           (Some "s3cr3t"%string)
           (Some [ ("email", Json.Str "alice@example.org");
                   ("password", Json.Str "secret1");
                   ("role", Json.Str "user") ]%string)
           {| status := 200;
              json :=
                [ ("token", Json.Str "header.payload.signature");
                  ("user",
                   Json.Obj [ ("id", Json.Str "64e9");
                              ("name", Json.Str "Alice");
                              ("role", Json.Str "user") ]) ]%string |});
    reflexivity.
Defined.

Lemma loginRoute_failures_look_alike_witness :
  let body :=
    [ ("email", Json.Str "alice@example.org");
      ("password", Json.Str "guess99"); ("role", Json.Str "user") ]%string in
  loginRoute fakeCannotDestructure (fakeMongoose [alice]) fakeBcrypt fakeJwt
    lenientValidator (Some "s3cr3t"%string) (Some body) =
  ([ ConsoleLog "I am inside login route"
       (Json.Obj [ ("email", Json.get body "email");
                   ("password", Json.get body "password");
                   ("role", Json.get body "role") ]%string) ],
   Ok (refusal 400 "Invalid credentials")).
Proof.
  apply (loginRoute_failures_look_alike fakeCannotDestructure
           (fakeMongoose [alice]) fakeBcrypt fakeJwt lenientValidator
           (Some "s3cr3t"%string)
           [ ("email", Json.Str "alice@example.org");
             ("password", Json.Str "guess99");
             ("role", Json.Str "user") ]%string).
  - reflexivity.
  - right. exists alice. split; reflexivity.
Defined.

Lemma registerAdminRoute_stores_the_password_as_sent_witness :
  Admin = Admin /\
  exists request : Json.object,
    Some bob = Some request /\
    Json.truthy (Json.get request "name") = true /\
    Json.truthy (Json.get request "email") = true /\
    Json.truthy (Json.get request "password") = true /\
    Mongoose.findOne (fakeMongoose [alice]) Admin (Json.get request "email")
      = Ok None /\
    bob =
      [ ("name", Json.get request "name");
        ("email", Json.get request "email");
        ("password", Json.get request "password") ]%string.
Proof.
  apply (registerAdminRoute_stores_the_password_as_sent
           fakeCannotDestructure (fakeMongoose [alice]) fakeJwt
           (Some "s3cr3t"%string) (Some bob) Admin bob).
  left. reflexivity.
Defined.

Lemma registerAdminRoute_saves_before_it_signs_witness :
  registerAdminRoute fakeCannotDestructure (fakeMongoose [alice]) fakeJwt
    None (Some bob) =
  ([Save Admin bob], Ok (refusal 500 "Server error")).
Proof.
  apply (registerAdminRoute_saves_before_it_signs fakeCannotDestructure
           (fakeMongoose [alice]) fakeJwt None bob
           "secretOrPrivateKey must have a value");
    reflexivity.
Defined.
